(** * Verification of the voice-assistant session engine

    Shallow embedding of [voice_assistant/main.py] (the reconnect loop
    [realtime_api], the outbound pacing loop and the process entry point
    [main]) and of [voice_assistant/tools/SendMessageAsync.py], together with
    the collaborators that the orchestrator imports from modules that are
    described only by the specification (the audio codec, the microphone,
    the inbound dispatch loop). *)

From Stdlib Require Import ZArith NArith Lia Bool Ascii String List.
From Stdlib Require Import Strings.Byte.
From Stdlib Require QArith.
From stdpp Require Import base option list strings gmap.

Local Open Scope string_scope.
Local Open Scope list_scope.

(** ** Audio codec *)

Module Base64.

Local Open Scope N_scope.

(** Raw PCM payloads are Python [bytes]. *)
Definition bytes := list Byte.byte.

(** The 64-symbol alphabet of the text-safe encoding. *)
Definition alphabet : string :=
  "ABCDEFGHIJKLMNOPQRSTUVWXYZabcdefghijklmnopqrstuvwxyz0123456789+/".

Definition pad : ascii := "="%char.

(** Symbol of a 6-bit value. *)
Definition sextet_char (n : N) : ascii :=
  match String.get (N.to_nat n) alphabet with
  | Some c => c
  | None => pad
  end.

(** 6-bit value of a symbol; [None] outside the alphabet. *)
Definition char_sextet (c : ascii) : option N :=
  let n := N_of_ascii c in
  if (65 <=? n) && (n <=? 90) then Some (n - 65)
  else if (97 <=? n) && (n <=? 122) then Some (n - 71)
  else if (48 <=? n) && (n <=? 57) then Some (n + 4)
  else if n =? 43 then Some 62
  else if n =? 47 then Some 63
  else None.

(** A 24-bit group written as four symbols / read back as three bytes. *)
Definition group3 (a b c : Byte.byte) : N :=
  Byte.to_N a * 65536 + Byte.to_N b * 256 + Byte.to_N c.

Definition ungroup4 (s1 s2 s3 s4 : N) : N :=
  s1 * 262144 + s2 * 4096 + s3 * 64 + s4.

(** Modelled from the spec: [base64_encode_audio] of [voice_assistant.utils]
    (imported by main.py, not part of the sources at hand), the encoder half
    of the "AudioEncoder/Decoder" pair: raw PCM bytes to the wire's
    "base64-style text-safe" string, three bytes to four symbols, the last
    group padded with [=]. *)
Fixpoint base64_encode_audio (bs : bytes) : string :=
  match bs with
  | [] => EmptyString
  | [a] =>
      let n := Byte.to_N a * 65536 in
      String (sextet_char (n / 262144))
        (String (sextet_char (n / 4096 mod 64))
           (String pad (String pad EmptyString)))
  | [a; b] =>
      let n := Byte.to_N a * 65536 + Byte.to_N b * 256 in
      String (sextet_char (n / 262144))
        (String (sextet_char (n / 4096 mod 64))
           (String (sextet_char (n / 64 mod 64))
              (String pad EmptyString)))
  | a :: b :: c :: rest =>
      let n := group3 a b c in
      String (sextet_char (n / 262144))
        (String (sextet_char (n / 4096 mod 64))
           (String (sextet_char (n / 64 mod 64))
              (String (sextet_char (n mod 64))
                 (base64_encode_audio rest))))
  end.

(** Modelled from the spec: the decoder half of the pair (text-safe string
    back to raw PCM bytes).  It is partial: a text whose length is not a
    multiple of four, that uses a symbol outside the alphabet, that has
    padding anywhere but at the very end, or whose unused trailing bits are
    not zero, is not the encoding of any payload and is rejected. *)
Fixpoint base64_decode_audio (s : string) : option bytes :=
  match s with
  | EmptyString => Some []
  | String c1 (String c2 (String c3 (String c4 rest))) =>
      if Ascii.eqb c4 pad then
        match rest with
        | EmptyString =>
            if Ascii.eqb c3 pad then
              s1 ← char_sextet c1;
              s2 ← char_sextet c2;
              if s2 mod 16 =? 0 then
                a ← Byte.of_N (s1 * 4 + s2 / 16);
                Some [a]
              else None
            else
              s1 ← char_sextet c1;
              s2 ← char_sextet c2;
              s3 ← char_sextet c3;
              if s3 mod 4 =? 0 then
                a ← Byte.of_N (s1 * 4 + s2 / 16);
                b ← Byte.of_N ((s2 mod 16) * 16 + s3 / 4);
                Some [a; b]
              else None
        | String _ _ => None
        end
      else
        s1 ← char_sextet c1;
        s2 ← char_sextet c2;
        s3 ← char_sextet c3;
        s4 ← char_sextet c4;
        let n := ungroup4 s1 s2 s3 s4 in
        a ← Byte.of_N (n / 65536);
        b ← Byte.of_N (n / 256 mod 256);
        c ← Byte.of_N (n mod 256);
        tl ← base64_decode_audio rest;
        Some (a :: b :: c :: tl)
  | _ => None
  end.

End Base64.

(** ** Wire messages *)

(** One entry of [TOOL_SCHEMAS]: name, description, parameter schema. *)
Record tool_schema := {
  tool_name : string;
  tool_description : string;
  tool_parameters : string
}.

(** The ["turn_detection"] object of the session configuration.  The
    threshold is a Python float that is only carried, never computed with. *)
Record turn_detection := {
  td_type : string;
  td_threshold : QArith_base.Q;
  td_prefix_padding_ms : Z;
  td_silence_duration_ms : Z
}.

(** The ["session"] object of a ["session.update"] message. *)
Record session := {
  modalities : list string;
  instructions : string;
  voice : string;
  input_audio_format : string;
  output_audio_format : string;
  turn_detection_of : turn_detection;
  tools : list tool_schema
}.

(** Messages the client puts on the transport. *)
Inductive OutboundEvent :=
| session_update (s : session)                 (* "session.update" *)
| input_audio_buffer_append (audio : string)   (* "input_audio_buffer.append" *)
| function_call_result (call_id output : string)
| response_cancel.

(** ** Inbound dispatch loop *)

Module Dispatch.
Import Base64.

Inductive TurnState := idle | user_speaking | assistant_responding.

Inductive InboundEvent :=
| speech_started
| speech_stopped
| audio_delta (payload : string)
| audio_done
| transcript_delta (text : string)
| transcript_done (text : string)
| function_call_requested (call_id name arguments : string)
| function_call_arguments_done (call_id : string)
| error (fatal : bool) (message : string)
| other (tag : string).

(** Outcome of [ToolInvocationBridge.invoke]. *)
Inductive tool_result :=
| ToolOk (result : string)
| ToolError (message : string).

(** Calls the dispatch loop makes on its collaborators. *)
Inductive effect :=
| Send (ev : OutboundEvent)
| MuteOutbound
| CancelCurrent
| Enqueue (pcm : bytes)
| Transcript (text : string)
| LogError (message : string)
| CloseTransport.

Record session_state := {
  turn : TurnState;
  calls : gmap string (string * string);  (* call id to (name, arguments so far) *)
  closing : bool;
  effects : list effect;                  (* oldest first *)
  dispatched : nat                        (* inbound events handled so far *)
}.

(** Modelled from the spec: the state a freshly started inbound task begins
    with (the task's code, [voice_assistant.websocket_handler], is not among
    the sources): TurnState [idle], no function call in progress. *)
Definition initial : session_state :=
  {| turn := idle; calls := ∅; closing := false;
     effects := []; dispatched := 0 |}.

Definition step (t : TurnState -> TurnState)
    (c : gmap string (string * string) -> gmap string (string * string))
    (close : bool) (es : list effect) (s : session_state) : session_state :=
  {| turn := t (turn s); calls := c (calls s);
     closing := closing s || close; effects := effects s ++ es;
     dispatched := S (dispatched s) |}.

(** Modelled from the spec: the dispatch table of section 4.3, one row per
    tag.  A [ToolError] becomes the text of the [function_call_result]; an
    undecodable audio payload or a completion for an unknown call id is a
    protocol error (logged, event ignored); only an [error] event flagged
    fatal closes the session. *)
Definition dispatch (invoke : string -> string -> tool_result)
    (ev : InboundEvent) (s : session_state) : session_state :=
  match ev with
  | speech_started =>
      step (fun _ => user_speaking) id false [MuteOutbound; CancelCurrent] s
  | speech_stopped =>
      step (fun _ => idle) id false [] s
  | audio_delta payload =>
      match base64_decode_audio payload with
      | Some pcm => step (fun _ => assistant_responding) id false [Enqueue pcm] s
      | None => step id id false [LogError "malformed audio payload"] s
      end
  | audio_done =>
      step (fun _ => idle) id false [] s
  | transcript_delta text | transcript_done text =>
      step id id false [Transcript text] s
  | function_call_requested call_id name arguments =>
      let so_far := match calls s !! call_id with
                    | Some (_, args) => args
                    | None => EmptyString
                    end in
      step id (insert call_id (name, so_far +:+ arguments)) false [] s
  | function_call_arguments_done call_id =>
      match calls s !! call_id with
      | Some (name, args) =>
          let output := match invoke name args with
                        | ToolOk result => result
                        | ToolError message => message
                        end in
          step id (delete call_id) false
            [Send (function_call_result call_id output)] s
      | None => step id id false [LogError "unknown function call"] s
      end
  | error fatal message =>
      step id id fatal
        (LogError message :: if fatal then [CloseTransport] else []) s
  | other _ => step id id false [] s
  end.

(** The one kind of event that ends a session. *)
Definition fatal (ev : InboundEvent) : bool :=
  match ev with
  | error true _ => true
  | _ => false
  end.

(** Modelled from the spec: the inbound dispatch loop, events handled in
    the order the transport yields them until the session is closing. *)
Fixpoint process_ws_messages (invoke : string -> string -> tool_result)
    (evs : list InboundEvent) (s : session_state) : session_state :=
  match evs with
  | [] => s
  | ev :: rest =>
      if closing s then s
      else process_ws_messages invoke rest (dispatch invoke ev s)
  end.

End Dispatch.

(** ** The orchestrator: [voice_assistant/main.py] *)

Module Main.
Import Base64.

(** Constants that main.py imports from [voice_assistant.config] and
    [voice_assistant.tools]; their values are deployment data. *)
Record Config := {
  SESSION_INSTRUCTIONS : string;
  SILENCE_THRESHOLD : QArith_base.Q;
  PREFIX_PADDING_MS : Z;
  SILENCE_DURATION_MS : Z;
  TOOL_SCHEMAS : list tool_schema
}.

(** *** Exceptions *)

(** The exception classes the handlers of main.py tell apart.
    [ConnectionClosedError] carries [str(e)].  [OtherException] is any other
    subclass of [Exception] (a normal close, [ConnectionClosedOK], included);
    [KeyboardInterrupt] and [CancelledError] derive from [BaseException]
    only. *)
Inductive exn :=
| ConnectionClosedError (reason : string)
| OtherException (message : string)
| KeyboardInterrupt
| CancelledError.

Definition str (e : exn) : string :=
  match e with
  | ConnectionClosedError reason => reason
  | OtherException message => message
  | KeyboardInterrupt | CancelledError => EmptyString
  end.

(** [isinstance(e, Exception)] *)
Definition is_Exception (e : exn) : bool :=
  match e with
  | ConnectionClosedError _ | OtherException _ => true
  | KeyboardInterrupt | CancelledError => false
  end.

(** Python's [needle in hay] on strings. *)
Fixpoint contains (needle hay : string) : bool :=
  String.prefix needle hay ||
  match hay with
  | EmptyString => false
  | String _ rest => contains needle rest
  end.

(** *** Observable calls *)

(** [logger.exception] logs at ERROR level with the traceback attached. *)
Inductive level := DEBUG | INFO | WARNING | ERROR | EXCEPTION.

(** Calls made on the outside world, in program order.  Delays are in
    milliseconds ([asyncio.sleep(0.01)] is [Sleep 10]). *)
Inductive call :=
| Print (line : string)
| Getenv (name : string)
| Log (lvl : level) (message : string)
| LogWsEvent (ev : OutboundEvent)
| NewMicrophone
| NewVisualInterface
| Connect (url : string) (extra_headers : list (string * string))
| WsSend (ev : OutboundEvent)
| CreateTask (coroutine : string)
| StartRecording
| Sleep (ms : nat)
| ProcessAudioData (frames : bytes)
| ExitEventSet
| StopRecording
| MicClose
| WsClose
| SetActive (flag : bool)
| AwaitTask (coroutine : string)
| PygameQuit.

(** *** Objects *)

Record AsyncMicrophone := {
  queue : bytes;          (* CaptureBuffer *)
  is_recording : bool;
  is_receiving : bool;
  mic_closed : bool
}.

Record WebSocket := {
  ws_open : bool;
  ws_sent : list OutboundEvent   (* delivered by [realtime_api], oldest first *)
}.

Record VisualInterface := {
  active : option bool;          (* [None]: as the constructor left it *)
  energy : list bytes            (* frames handed to [process_audio_data] *)
}.

(** Modelled from the spec: the constructor of [AsyncMicrophone]
    ([voice_assistant.microphone], AudioCaptureSource): an empty
    CaptureBuffer, capture not started, not emitting. *)
Definition AsyncMicrophone_new : AsyncMicrophone :=
  {| queue := []; is_recording := false; is_receiving := false; mic_closed := false |}.

(** Modelled from the spec: [start()], [stop()] (idempotent), [close()]
    (safe to repeat) and [drain()] of AudioCaptureSource. *)
Definition start_recording (m : AsyncMicrophone) : AsyncMicrophone :=
  {| queue := queue m; is_recording := true; is_receiving := is_receiving m;
     mic_closed := mic_closed m |}.

Definition stop_recording (m : AsyncMicrophone) : AsyncMicrophone :=
  {| queue := queue m; is_recording := false; is_receiving := is_receiving m;
     mic_closed := mic_closed m |}.

Definition close (m : AsyncMicrophone) : AsyncMicrophone :=
  {| queue := queue m; is_recording := is_recording m; is_receiving := is_receiving m;
     mic_closed := true |}.

Definition drained (m : AsyncMicrophone) : AsyncMicrophone :=
  {| queue := []; is_recording := is_recording m; is_receiving := is_receiving m;
     mic_closed := mic_closed m |}.

(** What the rest of the process does to the microphone while the
    orchestrator is suspended: the capture callback queues [frames] when
    capture is on, the inbound task leaves the emitting flag at [rx]. *)
Definition suspended (frames : bytes) (rx : bool) (m : AsyncMicrophone) : AsyncMicrophone :=
  {| queue := if is_recording m then queue m ++ frames else queue m;
     is_recording := is_recording m; is_receiving := rx;
     mic_closed := mic_closed m |}.

Definition WebSocket_new : WebSocket := {| ws_open := true; ws_sent := [] |}.

Definition delivered (ev : OutboundEvent) (w : WebSocket) : WebSocket :=
  {| ws_open := ws_open w; ws_sent := ws_sent w ++ [ev] |}.

Definition ws_closed (w : WebSocket) : WebSocket :=
  {| ws_open := false; ws_sent := ws_sent w |}.

Definition VisualInterface_new : VisualInterface := {| active := None; energy := [] |}.

Definition set_active (flag : bool) (v : VisualInterface) : VisualInterface :=
  {| active := Some flag; energy := energy v |}.

Definition process_audio_data (frames : bytes) (v : VisualInterface) : VisualInterface :=
  {| active := active v; energy := energy v ++ [frames] |}.

(** *** Program state *)

(** The local names of [realtime_api] that outlive a loop iteration
    ([mic], [visual_interface], [websocket], [ws_task]; unbound is [None]),
    the objects those names no longer refer to, and the calls made so far. *)
Record state := {
  mic : option AsyncMicrophone;
  visual_interface : option VisualInterface;
  websocket : option WebSocket;
  ws_task : option Dispatch.session_state;
  old_mics : list AsyncMicrophone;
  old_visuals : list VisualInterface;
  old_websockets : list WebSocket;
  old_tasks : list Dispatch.session_state;
  pygame_quit : bool;
  trace : list call
}.

Definition startup : state :=
  {| mic := None; visual_interface := None; websocket := None; ws_task := None;
     old_mics := []; old_visuals := []; old_websockets := []; old_tasks := [];
     pygame_quit := false; trace := [] |}.

(** Unbinding a name leaves its object among the old ones. *)
Definition retire {A} (name : option A) (old : list A) : list A :=
  match name with
  | Some x => old ++ [x]
  | None => old
  end.

(** *** The environment of one run *)

(** One turn of the pacing loop: what the awaited calls raise, if anything,
    and what happened elsewhere in the process while the loop slept. *)
Record tick := {
  t_sleep : option exn;
  t_captured : bytes;
  t_receiving : bool;
  t_inbound : list Dispatch.InboundEvent;
  t_send : option exn;
  t_process_audio : option exn
}.

(** One iteration of the reconnect loop. *)
Record attempt := {
  a_api_key : option string;       (* os.getenv("OPENAI_API_KEY") *)
  a_microphone : option exn;       (* AsyncMicrophone() *)
  a_visual : option exn;           (* VisualInterface() *)
  a_connect : option exn;          (* websockets.connect(...).__aenter__ *)
  a_configure : option exn;        (* websocket.send(session.update) *)
  a_start_recording : option exn;  (* mic.start_recording() *)
  a_ticks : list tick;
  a_ws_task : option exn;          (* await ws_task *)
  a_visual_task : option exn;      (* await visual_task *)
  a_backoff : option exn           (* asyncio.sleep(1) before reconnecting *)
}.

(** *** Effects *)

(** [Running]: the script of the environment ended before the program did. *)
Inductive result (A : Type) :=
| Ret (a : A)
| Raise (e : exn)
| Running.
Arguments Ret {A} a.
Arguments Raise {A} e.
Arguments Running {A}.

Definition M (A : Type) : Type := state -> result A * state.

Definition ret {A} (a : A) : M A := fun st => (Ret a, st).

Definition raise {A} (e : exn) : M A := fun st => (Raise e, st).

Definition running {A} : M A := fun st => (Running, st).

Definition bind {A B} (m : M A) (k : A -> M B) : M B :=
  fun st =>
    match m st with
    | (Ret a, st') => k a st'
    | (Raise e, st') => (Raise e, st')
    | (Running, st') => (Running, st')
    end.

Notation "'let!' x ':=' m 'in' k" := (bind m (fun x => k))
  (at level 10, x name, m at level 100, k at level 200).
Notation "m >> k" := (bind m (fun _ => k))
  (at level 100, k at level 200, right associativity).

(** [try: m except ...: h]; [h e = None] when no clause matches [e]. *)
Definition try_except {A} (m : M A) (h : exn -> option (M A)) : M A :=
  fun st =>
    match m st with
    | (Raise e, st') =>
        match h e with
        | Some k => k st'
        | None => (Raise e, st')
        end
    | r => r
    end.

(** [try: m finally: fin] *)
Definition try_finally {A} (m : M A) (fin : M unit) : M A :=
  fun st =>
    match m st with
    | (Running, st') => (Running, st')
    | (r, st') =>
        match fin st' with
        | (Ret _, st'') => (r, st'')
        | (Raise e, st'') => (Raise e, st'')
        | (Running, st'') => (Running, st'')
        end
    end.

Definition modify (f : state -> state) : M unit := fun st => (Ret tt, f st).

Definition may_raise (outcome : option exn) : M unit :=
  match outcome with
  | None => ret tt
  | Some e => raise e
  end.

Definition record (c : call) (st : state) : state :=
  {| mic := mic st; visual_interface := visual_interface st;
     websocket := websocket st; ws_task := ws_task st;
     old_mics := old_mics st; old_visuals := old_visuals st;
     old_websockets := old_websockets st; old_tasks := old_tasks st;
     pygame_quit := pygame_quit st; trace := trace st ++ [c] |}.

Definition on_mic (f : AsyncMicrophone -> AsyncMicrophone) (st : state) : state :=
  {| mic := f <$> mic st; visual_interface := visual_interface st;
     websocket := websocket st; ws_task := ws_task st;
     old_mics := old_mics st; old_visuals := old_visuals st;
     old_websockets := old_websockets st; old_tasks := old_tasks st;
     pygame_quit := pygame_quit st; trace := trace st |}.

Definition on_visual (f : VisualInterface -> VisualInterface) (st : state) : state :=
  {| mic := mic st; visual_interface := f <$> visual_interface st;
     websocket := websocket st; ws_task := ws_task st;
     old_mics := old_mics st; old_visuals := old_visuals st;
     old_websockets := old_websockets st; old_tasks := old_tasks st;
     pygame_quit := pygame_quit st; trace := trace st |}.

Definition on_websocket (f : WebSocket -> WebSocket) (st : state) : state :=
  {| mic := mic st; visual_interface := visual_interface st;
     websocket := f <$> websocket st; ws_task := ws_task st;
     old_mics := old_mics st; old_visuals := old_visuals st;
     old_websockets := old_websockets st; old_tasks := old_tasks st;
     pygame_quit := pygame_quit st; trace := trace st |}.

Definition on_task (f : Dispatch.session_state -> Dispatch.session_state)
    (st : state) : state :=
  {| mic := mic st; visual_interface := visual_interface st;
     websocket := websocket st; ws_task := f <$> ws_task st;
     old_mics := old_mics st; old_visuals := old_visuals st;
     old_websockets := old_websockets st; old_tasks := old_tasks st;
     pygame_quit := pygame_quit st; trace := trace st |}.

(** Assignments to the four names. *)
Definition bind_mic (m : AsyncMicrophone) (st : state) : state :=
  {| mic := Some m; visual_interface := visual_interface st;
     websocket := websocket st; ws_task := ws_task st;
     old_mics := retire (mic st) (old_mics st); old_visuals := old_visuals st;
     old_websockets := old_websockets st; old_tasks := old_tasks st;
     pygame_quit := pygame_quit st; trace := trace st |}.

Definition bind_visual (v : VisualInterface) (st : state) : state :=
  {| mic := mic st; visual_interface := Some v;
     websocket := websocket st; ws_task := ws_task st;
     old_mics := old_mics st;
     old_visuals := retire (visual_interface st) (old_visuals st);
     old_websockets := old_websockets st; old_tasks := old_tasks st;
     pygame_quit := pygame_quit st; trace := trace st |}.

Definition bind_websocket (w : WebSocket) (st : state) : state :=
  {| mic := mic st; visual_interface := visual_interface st;
     websocket := Some w; ws_task := ws_task st;
     old_mics := old_mics st; old_visuals := old_visuals st;
     old_websockets := retire (websocket st) (old_websockets st);
     old_tasks := old_tasks st;
     pygame_quit := pygame_quit st; trace := trace st |}.

Definition bind_task (t : Dispatch.session_state) (st : state) : state :=
  {| mic := mic st; visual_interface := visual_interface st;
     websocket := websocket st; ws_task := Some t;
     old_mics := old_mics st; old_visuals := old_visuals st;
     old_websockets := old_websockets st;
     old_tasks := retire (ws_task st) (old_tasks st);
     pygame_quit := pygame_quit st; trace := trace st |}.

Definition quit_pygame (st : state) : state :=
  {| mic := mic st; visual_interface := visual_interface st;
     websocket := websocket st; ws_task := ws_task st;
     old_mics := old_mics st; old_visuals := old_visuals st;
     old_websockets := old_websockets st; old_tasks := old_tasks st;
     pygame_quit := true; trace := trace st |}.

Definition do (c : call) : M unit := modify (record c).

Definition log (lvl : level) (message : string) : M unit := do (Log lvl message).

(** *** [realtime_api] *)

Inductive flow := Break | Continue | Return.

Section realtime_api.

Variable cfg : Config.

(** The tool bridge the inbound task calls. *)
Variable invoke : string -> string -> Dispatch.tool_result.

Definition url : string :=
  "wss://api.openai.com/v1/realtime?model=gpt-4o-realtime-preview-2024-10-01".

Definition headers (api_key : string) : list (string * string) :=
  [("Authorization", "Bearer " +:+ api_key); ("OpenAI-Beta", "realtime=v1")].

Definition session_update_event : OutboundEvent :=
  session_update
    {| modalities := ["text"; "audio"];
       instructions := SESSION_INSTRUCTIONS cfg;
       voice := "shimmer";
       input_audio_format := "pcm16";
       output_audio_format := "pcm16";
       turn_detection_of :=
         {| td_type := "server_vad";
            td_threshold := SILENCE_THRESHOLD cfg;
            td_prefix_padding_ms := PREFIX_PADDING_MS cfg;
            td_silence_duration_ms := SILENCE_DURATION_MS cfg |};
       tools := TOOL_SCHEMAS cfg |}.

(** [await websocket.send(json.dumps(ev))] *)
Definition send (outcome : option exn) (ev : OutboundEvent) : M unit :=
  do (WsSend ev) >> may_raise outcome >> modify (on_websocket (delivered ev)).

(** [mic.is_receiving] and [mic.get_audio_data()]; the name [mic] is bound
    wherever the source evaluates them. *)
Definition mic_is_receiving : M bool :=
  fun st => (Ret (from_option is_receiving false (mic st)), st).

Definition get_audio_data : M bytes :=
  fun st => (Ret (from_option queue [] (mic st)), on_mic drained st).

(** Lines 93-108: one turn of [while not exit_event.is_set()].  During the
    sleep the capture callback and the inbound task run. *)
Definition pacing_iteration (t : tick) : M unit :=
  do (Sleep 10) >>
  modify (on_mic (suspended (t_captured t) (t_receiving t))) >>
  modify (on_task (Dispatch.process_ws_messages invoke (t_inbound t))) >>
  may_raise (t_sleep t) >>
  let! receiving := mic_is_receiving in
  if negb receiving then
    let! audio_data := get_audio_data in
    match audio_data with
    | [] => ret tt
    | _ :: _ =>
        match base64_encode_audio audio_data with
        | EmptyString => log DEBUG "No audio data to send"
        | String _ _ as base64_audio =>
            let audio_event := input_audio_buffer_append base64_audio in
            do (LogWsEvent audio_event) >>
            send (t_send t) audio_event >>
            do (ProcessAudioData audio_data) >>
            may_raise (t_process_audio t) >>
            modify (on_visual (process_audio_data audio_data))
        end
    end
  else ret tt.

(** Lines 92-108.  [exit_event] is set only in the [finally] below, so the
    loop is left through an exception or not at all. *)
Fixpoint pacing_loop (ticks : list tick) : M unit :=
  match ticks with
  | [] => running
  | t :: rest => pacing_iteration t >> pacing_loop rest
  end.

(** Lines 109-114. *)
Definition main_loop_except (e : exn) : option (M unit) :=
  match e with
  | KeyboardInterrupt =>
      Some (log INFO "Keyboard interrupt received. Closing the connection.")
  | ConnectionClosedError _ | OtherException _ =>
      Some (log EXCEPTION ("An unexpected error occurred in the main loop: " +:+ str e))
  | CancelledError => None
  end.

(** Lines 115-120. *)
Definition main_loop_finally : M unit :=
  do ExitEventSet >>
  do StopRecording >> modify (on_mic stop_recording) >>
  do MicClose >> modify (on_mic close) >>
  do WsClose >> modify (on_websocket ws_closed) >>
  do (SetActive false) >> modify (on_visual (set_active false)).

(** Lines 123-127. *)
Definition await_tasks (a : attempt) : M unit :=
  try_except
    (do (AwaitTask "process_ws_messages") >> may_raise (a_ws_task a) >>
     do (AwaitTask "run_visual_interface") >> may_raise (a_visual_task a))
    (fun e =>
       if is_Exception e
       then Some (log EXCEPTION ("Error in WebSocket processing task: " +:+ str e))
       else None).

(** Lines 56-89: the handshake, up to the start of the pacing loop. *)
Definition session_prologue (a : attempt) : M unit :=
  log INFO "Connected to the server." >>
  do (LogWsEvent session_update_event) >>
  send (a_configure a) session_update_event >>
  do (CreateTask "process_ws_messages") >> modify (bind_task Dispatch.initial) >>
  do (CreateTask "run_visual_interface") >>
  log INFO "Conversation started. Speak freely, and the assistant will respond." >>
  do StartRecording >> may_raise (a_start_recording a) >> modify (on_mic start_recording) >>
  log INFO "Recording started. Listening for speech...".

(** Lines 91-127: the pacing loop with its handlers, then the tasks. *)
Definition session_active (a : attempt) : M unit :=
  try_finally
    (try_except (pacing_loop (a_ticks a)) main_loop_except)
    main_loop_finally >>
  await_tasks a.

(** Lines 56-127: the body of the [async with] block. *)
Definition session_body (a : attempt) : M unit :=
  session_prologue a >> session_active a.

(** Line 55: [async with websockets.connect(url, extra_headers=headers) as
    websocket]; leaving the block, normally or not, closes the connection. *)
Definition async_with_connect (a : attempt) (api_key : string) (body : M unit) : M unit :=
  do (Connect url (headers api_key)) >> may_raise (a_connect a) >>
  modify (bind_websocket WebSocket_new) >>
  try_finally body (do WsClose >> modify (on_websocket ws_closed)).

(** Lines 52-89 on their own: what an iteration that has read its key does
    before its pacing loop starts. *)
Definition begin_session (a : attempt) (api_key : string) : M unit :=
  do NewMicrophone >> may_raise (a_microphone a) >>
  modify (bind_mic AsyncMicrophone_new) >>
  do NewVisualInterface >> may_raise (a_visual a) >>
  modify (bind_visual VisualInterface_new) >>
  do (Connect url (headers api_key)) >> may_raise (a_connect a) >>
  modify (bind_websocket WebSocket_new) >>
  session_prologue a.

(** Lines 39-130: the [try] block of one iteration. *)
Definition try_block (a : attempt) : M flow :=
  do (Getenv "OPENAI_API_KEY") >>
  match a_api_key a with
  | None | Some EmptyString =>
      log ERROR "Please set the OPENAI_API_KEY in your .env file." >> ret Return
  | Some (String _ _ as api_key) =>
      do NewMicrophone >> may_raise (a_microphone a) >>
      modify (bind_mic AsyncMicrophone_new) >>
      do NewVisualInterface >> may_raise (a_visual a) >>
      modify (bind_visual VisualInterface_new) >>
      async_with_connect a api_key (session_body a) >>
      ret Break
  end.

(** Lines 131-142. *)
Definition realtime_api_except (a : attempt) (e : exn) : option (M flow) :=
  match e with
  | ConnectionClosedError _ =>
      Some (if contains "keepalive ping timeout" (str e) then
              log WARNING
                "WebSocket connection lost due to keepalive ping timeout. Reconnecting..." >>
              do (Sleep 1000) >> may_raise (a_backoff a) >>
              ret Continue
            else
              log EXCEPTION "WebSocket connection closed unexpectedly." >>
              ret Break)
  | OtherException _ =>
      Some (log EXCEPTION ("An unexpected error occurred: " +:+ str e) >> ret Break)
  | KeyboardInterrupt | CancelledError => None
  end.

Definition when_bound {A} (name : state -> option A) (m : M unit) : M unit :=
  fun st =>
    match name st with
    | Some _ => m st
    | None => (Ret tt, st)
    end.

(** Lines 143-149. *)
Definition realtime_api_finally : M unit :=
  when_bound mic
    (do StopRecording >> modify (on_mic stop_recording) >>
     do MicClose >> modify (on_mic close)) >>
  when_bound websocket (do WsClose >> modify (on_websocket ws_closed)) >>
  do PygameQuit >> modify quit_pygame.

(** Lines 38-149: one iteration of [while True]. *)
Definition iteration (a : attempt) : M flow :=
  try_finally
    (try_except (try_block a) (realtime_api_except a))
    realtime_api_finally.

(** Lines 36-149.  The script lists the iterations the environment lets
    happen, in order. *)
Fixpoint realtime_api (script : list attempt) : M unit :=
  match script with
  | [] => running
  | a :: rest =>
      let! what := iteration a in
      match what with
      | Continue => realtime_api rest
      | Break | Return => ret tt
      end
  end.

Definition main_async (script : list attempt) : M unit := realtime_api script.

(** Lines 156-162. *)
Definition main (script : list attempt) : M unit :=
  try_except (main_async script)
    (fun e =>
       match e with
       | KeyboardInterrupt => Some (log INFO "Program terminated by user")
       | ConnectionClosedError _ | OtherException _ =>
           Some (log EXCEPTION ("An unexpected error occurred: " +:+ str e))
       | CancelledError => None
       end).

(** Lines 165-167 and the interpreter around them: the exit status is 0
    when the script runs to its end and 1 when an exception escapes;
    [None] while the process is still running. *)
Definition program (script : list attempt) (st : state) : option Z * state :=
  match (do (Print "Press Ctrl+C to exit the program.") >> main script) st with
  | (Ret _, st') => (Some 0%Z, st')
  | (Raise _, st') => (Some 1%Z, st')
  | (Running, st') => (None, st')
  end.

End realtime_api.

End Main.

(** ** The tool [voice_assistant/tools/SendMessageAsync.py] *)

Module SendMessageAsync.

Record Agent := { name : string }.

Record Agency := { agents : list Agent }.

(** The fields of a tool instance. *)
Record SendMessageAsync := {
  message : string;
  agency_name : string;
  agent_name : option string
}.

(** One call [agency.get_completion(message=..., recipient_agent=...)]. *)
Record get_completion := {
  on_agency : Agency;
  with_message : string;
  recipient_agent : option Agent
}.

Inductive outcome :=
| Returns (value : string)
| Raises (what : string).

(** [sep.join(parts)] *)
Fixpoint join (sep : string) (parts : list string) : string :=
  match parts with
  | [] => EmptyString
  | [x] => x
  | x :: rest => x +:+ sep +:+ join sep rest
  end.

(** Lines 43-63.  [AGENCIES] is the dictionary of [voice_assistant.agencies];
    [completion] tells what the call to [get_completion] raises, if
    anything.  The result is the list of dispatches made and how the method
    ends. *)
Definition send_message (AGENCIES : gmap string Agency)
    (completion : get_completion -> option string)
    (self : SendMessageAsync) : list get_completion * outcome :=
  match AGENCIES !! agency_name self with
  | Some agency =>
      let dispatch recipient :=
        let c := {| on_agency := agency; with_message := message self;
                    recipient_agent := recipient |} in
        match completion c with
        | Some what => ([c], Raises what)
        | None =>
            ([c], Returns "Message sent asynchronously. Use 'GetResponse' to check status.")
        end in
      match agent_name self with
      | Some (String _ _ as wanted) =>
          match List.find (fun agent => String.eqb (name agent) wanted) (agents agency) with
          | Some recipient => dispatch (Some recipient)
          | None =>
              ([], Returns ("Agent '" +:+ wanted +:+ "' not found in agency '" +:+
                            agency_name self +:+ "'. Available agents: " +:+
                            join ", " (List.map name (agents agency))))
          end
      | Some EmptyString | None => dispatch None
      end
  | None => ([], Returns ("Agency '" +:+ agency_name self +:+ "' not found"))
  end.

(** The agent asked for: [None] when [agent_name] is [None] or empty, the
    two values line 46 takes for "not given". *)
Definition wanted (self : SendMessageAsync) : option string :=
  match agent_name self with
  | Some (String _ _ as n) => Some n
  | Some EmptyString | None => None
  end.

(** Lines 38-41: [str] of a string is the string. *)
Definition run (AGENCIES : gmap string Agency)
    (completion : get_completion -> option string)
    (self : SendMessageAsync) : list get_completion * outcome :=
  send_message AGENCIES completion self.

End SendMessageAsync.

(** ** Observations on states and call sequences *)

Module Observe.
Import Main.

(** An audio-append call. *)
Definition is_audio_send (c : call) : bool :=
  match c with
  | WsSend (input_audio_buffer_append _) => true
  | _ => false
  end.

(** A connection attempt or the sending of a session configuration. *)
Definition is_handshake (c : call) : bool :=
  match c with
  | Connect _ _ | WsSend (session_update _) => true
  | _ => false
  end.

(** The calls an iteration of the pacing loop can make. *)
Definition pacing_call (c : call) : bool :=
  match c with
  | Sleep _ | Log DEBUG _ | ProcessAudioData _
  | LogWsEvent (input_audio_buffer_append _)
  | WsSend (input_audio_buffer_append _) => true
  | _ => false
  end.

(** A websocket after further deliveries. *)
Definition delivered_all (evs : list OutboundEvent) (w : WebSocket) : WebSocket :=
  {| ws_open := ws_open w; ws_sent := ws_sent w ++ evs |}.

(** The parts of the state a pacing loop leaves alone. *)
Definition same_past (st st' : state) : Prop :=
  old_mics st' = old_mics st /\ old_visuals st' = old_visuals st /\
  old_websockets st' = old_websockets st /\ old_tasks st' = old_tasks st /\
  pygame_quit st' = pygame_quit st.






(** The first exception, if any, raised between reading the key and the
    start of the pacing loop (lines 52-89). *)
Definition before_loop (a : attempt) : option exn :=
  match a_api_key a with
  | Some (String _ _) =>
      match a_microphone a, a_visual a, a_connect a, a_configure a, a_start_recording a with
      | Some e, _, _, _, _
      | None, Some e, _, _, _
      | None, None, Some e, _, _
      | None, None, None, Some e, _
      | None, None, None, None, Some e => Some e
      | None, None, None, None, None => None
      end
  | _ => None
  end.

(** A close with the keepalive signature in its reason. *)
Definition transient (e : exn) : bool :=
  match e with
  | ConnectionClosedError reason => contains "keepalive ping timeout" reason
  | _ => false
  end.

(** The iterations after which the loop goes round again. *)
Definition reconnects (a : attempt) : bool :=
  match before_loop a with
  | Some e => transient e && match a_backoff a with None => true | Some _ => false end
  | None => false
  end.

(** Number of connection attempts in a sequence of calls. *)
Definition connections (calls : list call) : nat :=
  length (List.filter (fun c => match c with Connect _ _ => true | _ => false end) calls).

End Observe.

(** ** Sample data for concrete runs *)

Module Sample.
Import Main.

Definition config : Config :=
  {| SESSION_INSTRUCTIONS := "You are a helpful assistant.";
     SILENCE_THRESHOLD := QArith_base.Qmake 1 2;
     PREFIX_PADDING_MS := 300;
     SILENCE_DURATION_MS := 500;
     TOOL_SCHEMAS :=
       [{| tool_name := "GetCurrentTime";
           tool_description := "A tool to get the current time.";
           tool_parameters := "{}" |}] |}.

(** A tool bridge in which [GetCurrentTime] works and any other tool fails. *)
Definition bridge (name arguments : string) : Dispatch.tool_result :=
  if String.eqb name "GetCurrentTime"
  then Dispatch.ToolOk "2024-10-01 12:00:00"
  else Dispatch.ToolError ("unknown tool " +:+ name).

Definition keepalive_timeout : exn :=
  ConnectionClosedError
    "sent 1011 (unexpected error) keepalive ping timeout; no close frame received".

(** Three bytes are captured and go out. *)
Definition speaking : tick :=
  {| t_sleep := None; t_captured := ["M"; "a"; "n"]%byte; t_receiving := false;
     t_inbound := []; t_send := None; t_process_audio := None |}.

(** The assistant is heard: the microphone is muted. *)
Definition listening : tick :=
  {| t_sleep := None; t_captured := ["M"; "a"; "n"]%byte; t_receiving := true;
     t_inbound := [Dispatch.audio_delta "TWFu"]; t_send := None;
     t_process_audio := None |}.

(** The send finds the connection lost to a keepalive timeout. *)
Definition timed_out : tick :=
  {| t_sleep := None; t_captured := ["M"]%byte; t_receiving := false;
     t_inbound := []; t_send := Some keepalive_timeout; t_process_audio := None |}.


(** An iteration in which every call succeeds and the loop runs [ticks]. *)
Definition session_of (ticks : list tick) : attempt :=
  {| a_api_key := Some "sk-test"; a_microphone := None; a_visual := None;
     a_connect := None; a_configure := None; a_start_recording := None;
     a_ticks := ticks; a_ws_task := None; a_visual_task := None;
     a_backoff := None |}.

(** A session that speaks once and then loses its connection to a keepalive
    timeout: the next send and the inbound task both see the close. *)
Definition lost_session : attempt :=
  {| a_api_key := Some "sk-test"; a_microphone := None; a_visual := None;
     a_connect := None; a_configure := None; a_start_recording := None;
     a_ticks := [speaking; timed_out]; a_ws_task := Some keepalive_timeout;
     a_visual_task := None; a_backoff := None |}.

Definition no_key : attempt :=
  {| a_api_key := None; a_microphone := None; a_visual := None;
     a_connect := None; a_configure := None; a_start_recording := None;
     a_ticks := []; a_ws_task := None; a_visual_task := None;
     a_backoff := None |}.


(** The first send of the session already finds the connection timed out. *)
Definition timed_out_at_handshake : attempt :=
  {| a_api_key := Some "sk-test"; a_microphone := None; a_visual := None;
     a_connect := None; a_configure := Some keepalive_timeout;
     a_start_recording := None; a_ticks := []; a_ws_task := None;
     a_visual_task := None; a_backoff := None |}.


(** A session that has just started its pacing loop. *)
Definition recording : state :=
  {| mic := Some (start_recording AsyncMicrophone_new);
     visual_interface := Some VisualInterface_new;
     websocket := Some (delivered (session_update_event config) WebSocket_new);
     ws_task := Some Dispatch.initial;
     old_mics := []; old_visuals := []; old_websockets := []; old_tasks := [];
     pygame_quit := false;
     trace := [] |}.

(** The registry of the example at the end of SendMessageAsync.py. *)
Definition browsing_agent : SendMessageAsync.Agent :=
  {| SendMessageAsync.name := "BrowsingAgent" |}.

Definition research_agency : SendMessageAsync.Agency :=
  {| SendMessageAsync.agents := [browsing_agent] |}.

Definition agencies : gmap string SendMessageAsync.Agency :=
  {["ResearchAgency" := research_agency]}.

Definition completes (c : SendMessageAsync.get_completion) : option string := None.

Definition to_agent (agent : option string) : SendMessageAsync.SendMessageAsync :=
  {| SendMessageAsync.message := "Write a long paragraph about the history of the internet.";
     SendMessageAsync.agency_name := "ResearchAgency";
     SendMessageAsync.agent_name := agent |}.

(** A session state with one function call waiting for its last fragment. *)
Definition call_pending : Dispatch.session_state :=
  {| Dispatch.turn := Dispatch.idle;
     Dispatch.calls := {["call_1" := ("SendMessageAsync", "{}")]};
     Dispatch.closing := false;
     Dispatch.effects := [];
     Dispatch.dispatched := 1 |}.

End Sample.

(** ** Further observations on runs *)

Module Behaviour.
Import Main Observe.

(** Number of one-second waits (the pause before reconnecting). *)
Definition waits (calls : list call) : nat :=
  length (List.filter (fun c => match c with Sleep ms => Nat.eqb ms 1000 | _ => false end)
            calls).

(** A turn of the pacing loop in which no call raises. *)
Definition calm_tick (t : tick) : bool :=
  match t_sleep t, t_send t, t_process_audio t with
  | None, None, None => true
  | _, _, _ => false
  end.

(** An iteration with a key in which no call raises. *)
Definition calm (a : attempt) : bool :=
  match a_api_key a, before_loop a with
  | Some (String _ _), None => forallb calm_tick (a_ticks a)
  | _, _ => false
  end.

(** A visual interface that has been handed further frames. *)
Definition fed (frames : list Base64.bytes) (v : VisualInterface) : VisualInterface :=
  {| active := active v; energy := energy v ++ frames |}.

(** The audio-append that carries a drained buffer. *)
Definition audio_append (frames : Base64.bytes) : OutboundEvent :=
  input_audio_buffer_append (Base64.base64_encode_audio frames).

(** The calls of the [finally] of lines 143-149. *)
Definition cleanup_calls (st : state) : list call :=
  match mic st with Some _ => [StopRecording; MicClose] | None => [] end ++
  match websocket st with Some _ => [WsClose] | None => [] end ++
  [PygameQuit].



End Behaviour.

(** ** The tool [voice_assistant/tools/GetCurrentTime.py] *)

Module GetCurrentTime.

Local Open Scope N_scope.

(** The fields of the value [datetime.now()] returns. *)
Record datetime := {
  year : N;
  month : N;
  day : N;
  hour : N;
  minute : N;
  second : N;
  microsecond : N
}.


(** The decimal digit of the units of [n]. *)
Definition digit (n : N) : ascii := ascii_of_N (48 + n mod 10).

(** [%m], [%d], [%H], [%M], [%S]: two digits, zero-padded. *)
Definition pad2 (n : N) : string :=
  String (digit (n / 10)) (String (digit n) EmptyString).

(** [%Y]: four digits, zero-padded. *)
Definition pad4 (n : N) : string :=
  String (digit (n / 1000)) (String (digit (n / 100)) (pad2 n)).

(** [d.strftime("%Y-%m-%d %H:%M:%S")] *)
Definition strftime (d : datetime) : string :=
  pad4 (year d) +:+ "-" +:+ pad2 (month d) +:+ "-" +:+ pad2 (day d) +:+ " " +:+
  pad2 (hour d) +:+ ":" +:+ pad2 (minute d) +:+ ":" +:+ pad2 (second d).

(** Lines 11-12; [now] is what [datetime.now()] returns. *)
Definition run (now : datetime) : string := strftime now.


End GetCurrentTime.

(** ** Further sample data *)

Module Scenario.
Import Main.

(** The task is cancelled while the pacing loop sleeps. *)
Definition cancelled : tick :=
  {| t_sleep := Some CancelledError; t_captured := []; t_receiving := false;
     t_inbound := []; t_send := None; t_process_audio := None |}.




End Scenario.

(** * Properties *)

(** ** The codec *)

Section Base64Facts.
Import Base64.
Local Open Scope N_scope.

Example encode_Man : base64_encode_audio ["M"%byte; "a"%byte; "n"%byte] = "TWFu".
Proof. reflexivity. Qed.

Example encode_Ma : base64_encode_audio ["M"%byte; "a"%byte] = "TWE=".
Proof. reflexivity. Qed.

Example encode_M : base64_encode_audio ["M"%byte] = "TQ==".
Proof. reflexivity. Qed.

Example decode_TWE : base64_decode_audio "TWE=" = Some ["M"%byte; "a"%byte].
Proof. reflexivity. Qed.

Example decode_noncanonical : base64_decode_audio "TWF=" = None.
Proof. reflexivity. Qed.

Lemma char_sextet_char (n : N) : n < 64 -> char_sextet (sextet_char n) = Some n.
Proof.
  intros Hn.
  assert (H : forallb (fun k => match char_sextet (sextet_char (N.of_nat k)) with
                                | Some m => N.eqb m (N.of_nat k)
                                | None => false
                                end) (seq 0 64) = true) by (vm_compute; reflexivity).
  rewrite forallb_forall in H.
  assert (Hin : In (N.to_nat n) (seq 0 64)) by (apply in_seq; lia).
  specialize (H _ Hin). rewrite N2Nat.id in H.
  destruct (char_sextet (sextet_char n)) as [m|]; [|discriminate H].
  apply N.eqb_eq in H. now subst m.
Qed.

Lemma sextet_char_not_pad (n : N) : n < 64 -> Ascii.eqb (sextet_char n) pad = false.
Proof.
  intros Hn.
  assert (H : forallb (fun k => negb (Ascii.eqb (sextet_char (N.of_nat k)) pad))
                (seq 0 64) = true) by (vm_compute; reflexivity).
  rewrite forallb_forall in H.
  assert (Hin : In (N.to_nat n) (seq 0 64)) by (apply in_seq; lia).
  specialize (H _ Hin). rewrite N2Nat.id in H.
  now apply negb_true_iff.
Qed.

Lemma sextet_char_sextet (c : ascii) (n : N) :
  char_sextet c = Some n -> n < 64 /\ sextet_char n = c /\ Ascii.eqb c pad = false.
Proof.
  destruct c as [[] [] [] [] [] [] [] []]; vm_compute; intros H;
    try discriminate H; injection H as <-; repeat split; reflexivity.
Qed.

(** Linear arithmetic with division and remainder by constants. *)
Ltac divmod_lia := zify; Z.to_euclidean_division_equations; lia.

Lemma list_ind3 {A} (P : list A -> Prop) :
  P [] -> (forall a, P [a]) -> (forall a b, P [a; b]) ->
  (forall a b c l, P l -> P (a :: b :: c :: l)) ->
  forall l, P l.
Proof.
  intros H0 H1 H2 H3. fix IH 1.
  intros [|a [|b [|c l]]]; [exact H0 | apply H1 | apply H2 | apply H3, IH].
Qed.

Lemma group3_sextets (a b c : Byte.byte) :
  let n := group3 a b c in
  n / 262144 < 64 /\ n / 4096 mod 64 < 64 /\ n / 64 mod 64 < 64 /\ n mod 64 < 64 /\
  ungroup4 (n / 262144) (n / 4096 mod 64) (n / 64 mod 64) (n mod 64) = n.
Proof.
  unfold group3, ungroup4.
  pose proof (Byte.to_N_bounded a). pose proof (Byte.to_N_bounded b).
  pose proof (Byte.to_N_bounded c).
  cbv zeta. repeat split; divmod_lia.
Qed.

Lemma group3_bytes (a b c : Byte.byte) :
  let n := group3 a b c in
  n / 65536 = Byte.to_N a /\ n / 256 mod 256 = Byte.to_N b /\ n mod 256 = Byte.to_N c.
Proof.
  unfold group3.
  pose proof (Byte.to_N_bounded a). pose proof (Byte.to_N_bounded b).
  pose proof (Byte.to_N_bounded c).
  cbv zeta. repeat split; divmod_lia.
Qed.

Lemma decode_encode (bs : bytes) :
  base64_decode_audio (base64_encode_audio bs) = Some bs.
Proof.
  induction bs as [|a|a b|a b c l IH] using list_ind3.
  - reflexivity.
  - cbn [base64_encode_audio base64_decode_audio].
    pose proof (Byte.to_N_bounded a) as Ha.
    change (Ascii.eqb pad pad) with true. cbv iota.
    rewrite !char_sextet_char by divmod_lia. cbn [mbind option_bind].
    replace (_ mod 16 =? 0) with true by (symmetry; apply N.eqb_eq; divmod_lia).
    replace (_ * 4 + _ / 16) with (Byte.to_N a) by divmod_lia.
    now rewrite Byte.of_to_N.
  - cbn [base64_encode_audio base64_decode_audio].
    pose proof (Byte.to_N_bounded a) as Ha. pose proof (Byte.to_N_bounded b) as Hb.
    change (Ascii.eqb pad pad) with true. cbv iota.
    rewrite sextet_char_not_pad by divmod_lia.
    rewrite !char_sextet_char by divmod_lia. cbn [mbind option_bind].
    replace (_ mod 4 =? 0) with true by (symmetry; apply N.eqb_eq; divmod_lia).
    replace (_ * 4 + _ / 16) with (Byte.to_N a) by divmod_lia.
    replace (_ mod 16 * 16 + _ / 4) with (Byte.to_N b) by divmod_lia.
    now rewrite !Byte.of_to_N.
  - cbn [base64_encode_audio base64_decode_audio].
    destruct (group3_sextets a b c) as (H1 & H2 & H3 & H4 & Hn).
    destruct (group3_bytes a b c) as (Ba & Bb & Bc).
    rewrite sextet_char_not_pad by exact H4.
    rewrite !char_sextet_char by assumption. cbn [mbind option_bind].
    cbv zeta. rewrite Hn, Ba, Bb, Bc, !Byte.of_to_N. cbn [mbind option_bind].
    now rewrite IH.
Qed.

Lemma string_ind4 (P : string -> Prop) :
  P EmptyString ->
  (forall c1, P (String c1 EmptyString)) ->
  (forall c1 c2, P (String c1 (String c2 EmptyString))) ->
  (forall c1 c2 c3, P (String c1 (String c2 (String c3 EmptyString)))) ->
  (forall c1 c2 c3 c4 s, P s -> P (String c1 (String c2 (String c3 (String c4 s))))) ->
  forall s, P s.
Proof.
  intros H0 H1 H2 H3 H4. fix IH 1.
  intros [|c1 [|c2 [|c3 [|c4 s]]]];
    [exact H0 | apply H1 | apply H2 | apply H3 | apply H4, IH].
Qed.

Lemma encode_decode (s : string) (bs : bytes) :
  base64_decode_audio s = Some bs -> base64_encode_audio bs = s.
Proof.
  revert bs. induction s as [|c1|c1 c2|c1 c2 c3|c1 c2 c3 c4 s IH] using string_ind4;
    intros bs H; cbn [base64_decode_audio] in H; try discriminate H.
  - now injection H as <-.
  - destruct (Ascii.eqb c4 pad) eqn:E4.
    + apply Ascii.eqb_eq in E4. subst c4.
      destruct s; [|discriminate H].
      destruct (Ascii.eqb c3 pad) eqn:E3.
      * apply Ascii.eqb_eq in E3. subst c3.
        destruct (char_sextet c1) as [s1|] eqn:C1; [|discriminate H].
        destruct (char_sextet c2) as [s2|] eqn:C2; [|discriminate H].
        cbn [mbind option_bind] in H.
        destruct (s2 mod 16 =? 0) eqn:Z; [|discriminate H].
        destruct (Byte.of_N (s1 * 4 + s2 / 16)) as [a|] eqn:A; [|discriminate H].
        injection H as <-. apply Byte.to_of_N in A. apply N.eqb_eq in Z.
        apply sextet_char_sextet in C1 as (L1 & <- & _).
        apply sextet_char_sextet in C2 as (L2 & <- & _).
        cbn [base64_encode_audio]. rewrite A.
        replace (_ / 262144) with s1 by divmod_lia.
        replace (_ / 4096 mod 64) with s2 by divmod_lia.
        reflexivity.
      * destruct (char_sextet c1) as [s1|] eqn:C1; [|discriminate H].
        destruct (char_sextet c2) as [s2|] eqn:C2; [|discriminate H].
        destruct (char_sextet c3) as [s3|] eqn:C3; [|discriminate H].
        cbn [mbind option_bind] in H.
        destruct (s3 mod 4 =? 0) eqn:Z; [|discriminate H].
        destruct (Byte.of_N (s1 * 4 + s2 / 16)) as [a|] eqn:A; [|discriminate H].
        cbn [mbind option_bind] in H.
        destruct (Byte.of_N (s2 mod 16 * 16 + s3 / 4)) as [b|] eqn:B; [|discriminate H].
        injection H as <-. apply Byte.to_of_N in A, B. apply N.eqb_eq in Z.
        apply sextet_char_sextet in C1 as (L1 & <- & _).
        apply sextet_char_sextet in C2 as (L2 & <- & _).
        apply sextet_char_sextet in C3 as (L3 & <- & _).
        cbn [base64_encode_audio]. rewrite A, B.
        replace (_ / 262144) with s1 by divmod_lia.
        replace (_ / 4096 mod 64) with s2 by divmod_lia.
        replace (_ / 64 mod 64) with s3 by divmod_lia.
        reflexivity.
    + destruct (char_sextet c1) as [s1|] eqn:C1; [|discriminate H].
      destruct (char_sextet c2) as [s2|] eqn:C2; [|discriminate H].
      destruct (char_sextet c3) as [s3|] eqn:C3; [|discriminate H].
      destruct (char_sextet c4) as [s4|] eqn:C4; [|discriminate H].
      cbn [mbind option_bind] in H. cbv zeta in H.
      destruct (Byte.of_N (ungroup4 s1 s2 s3 s4 / 65536)) as [a|] eqn:A; [|discriminate H].
      cbn [mbind option_bind] in H.
      destruct (Byte.of_N (ungroup4 s1 s2 s3 s4 / 256 mod 256)) as [b|] eqn:B;
        [|discriminate H].
      cbn [mbind option_bind] in H.
      destruct (Byte.of_N (ungroup4 s1 s2 s3 s4 mod 256)) as [c|] eqn:C; [|discriminate H].
      cbn [mbind option_bind] in H.
      destruct (base64_decode_audio s) as [tl|] eqn:T; [|discriminate H].
      injection H as <-. apply Byte.to_of_N in A, B, C.
      apply sextet_char_sextet in C1 as (L1 & <- & _).
      apply sextet_char_sextet in C2 as (L2 & <- & _).
      apply sextet_char_sextet in C3 as (L3 & <- & _).
      apply sextet_char_sextet in C4 as (L4 & <- & _).
      cbn [base64_encode_audio]. rewrite (IH tl eq_refl).
      unfold group3. rewrite A, B, C.
      assert (R : forall n, n / 65536 * 65536 + n / 256 mod 256 * 256 + n mod 256 = n)
        by (intros n; divmod_lia).
      rewrite R. unfold ungroup4.
      replace (_ / 262144) with s1 by divmod_lia.
      replace (_ / 4096 mod 64) with s2 by divmod_lia.
      replace (_ / 64 mod 64) with s3 by divmod_lia.
      replace (_ mod 64) with s4 by divmod_lia.
      reflexivity.
Qed.

Lemma encode_nonempty (bs : bytes) :
  bs <> [] -> base64_encode_audio bs <> EmptyString.
Proof. destruct bs as [|a [|b [|c l]]]; [congruence | discriminate ..]. Qed.

(** C9: the codec is a pair of inverse pure functions.  Decoding the
    encoding of any PCM payload gives the payload back, and whenever the
    decoder accepts a text, encoding what it decoded gives that text back. *)
Theorem codec_roundtrip :
  (forall x : bytes, base64_decode_audio (base64_encode_audio x) = Some x) /\
  (forall (y : string) (x : bytes),
     base64_decode_audio y = Some x -> base64_encode_audio x = y).
Proof. split; [exact decode_encode | exact encode_decode]. Qed.

Lemma codec_roundtrip_witness :
  base64_decode_audio "TWFu" = Some ["M"; "a"; "n"]%byte /\
  base64_decode_audio (base64_encode_audio ["M"; "a"; "n"]%byte) = Some ["M"; "a"; "n"]%byte /\
  base64_encode_audio ["M"; "a"; "n"]%byte = "TWFu".
Proof.
  split; [reflexivity|]. split.
  - exact (proj1 codec_roundtrip ["M"; "a"; "n"]%byte).
  - exact (proj2 codec_roundtrip "TWFu" ["M"; "a"; "n"]%byte eq_refl).
Defined.

End Base64Facts.

(** ** The pacing loop *)

Import Main.

(** Unfolds the effect combinators so that a program applied to a state
    computes. *)
Ltac run :=
  unfold session_body, session_prologue, session_active, await_tasks,
    main_loop_finally, async_with_connect, realtime_api_finally, when_bound,
    send, mic_is_receiving, get_audio_data, log, do, modify, may_raise,
    try_finally, try_except, bind, ret, raise, running in *;
  cbn in *.

Import Observe.

Arguments Base64.base64_encode_audio : simpl never.

(** C2: in an iteration of the pacing loop in which the microphone reports
    that it is emitting ([mic.is_receiving] is true when line 94 reads it),
    nothing is sent on the transport: the only call made is the sleep, the
    websocket has delivered nothing new and the capture buffer is not
    drained. *)
Theorem muted_iteration_sends_nothing
    (invoke : string -> string -> Dispatch.tool_result)
    (t : tick) (m : AsyncMicrophone) (st : state) :
  mic st = Some m ->
  t_receiving t = true ->
  let st' := snd (pacing_iteration invoke t st) in
  trace st' = trace st ++ [Sleep 10] /\
  websocket st' = websocket st /\
  mic st' = Some (suspended (t_captured t) true m) /\
  existsb is_audio_send (trace st') = existsb is_audio_send (trace st).
Proof.
  intros Hm Hrx. destruct st, t as [sl cap rx inb sn pa]. cbn in Hm, Hrx. subst.
  unfold pacing_iteration. run.
  destruct sl; cbn; rewrite existsb_app; cbn; rewrite !orb_false_r; auto.
Qed.

(** C5: an iteration of the pacing loop in which the microphone is not
    emitting (and whose sleep is not interrupted) drains the capture buffer.
    An empty drain sends nothing and pushes no energy sample.  A non-empty
    drain is encoded and sent as one audio-append, and only after that the
    same raw frames go to the visual interface; if the send raises, no
    energy sample is pushed. *)
Theorem unmuted_iteration_drains
    (invoke : string -> string -> Dispatch.tool_result)
    (t : tick) (m : AsyncMicrophone) (st st' : state) (r : result unit) :
  mic st = Some m ->
  t_receiving t = false ->
  t_sleep t = None ->
  pacing_iteration invoke t st = (r, st') ->
  let data := queue (suspended (t_captured t) false m) in
  let audio_event := input_audio_buffer_append (Base64.base64_encode_audio data) in
  mic st' = Some (drained (suspended (t_captured t) false m)) /\
  match data with
  | [] =>
      r = Ret tt /\
      trace st' = trace st ++ [Sleep 10] /\
      websocket st' = websocket st /\
      visual_interface st' = visual_interface st
  | _ :: _ =>
      match t_send t, t_process_audio t with
      | None, None =>
          r = Ret tt /\
          trace st' = trace st ++ [Sleep 10; LogWsEvent audio_event; WsSend audio_event;
                                   ProcessAudioData data] /\
          websocket st' = delivered audio_event <$> websocket st /\
          visual_interface st' = process_audio_data data <$> visual_interface st
      | None, Some e =>
          r = Raise e /\
          trace st' = trace st ++ [Sleep 10; LogWsEvent audio_event; WsSend audio_event;
                                   ProcessAudioData data] /\
          websocket st' = delivered audio_event <$> websocket st /\
          visual_interface st' = visual_interface st
      | Some e, _ =>
          r = Raise e /\
          trace st' = trace st ++ [Sleep 10; LogWsEvent audio_event; WsSend audio_event] /\
          websocket st' = websocket st /\
          visual_interface st' = visual_interface st
      end
  end.
Proof.
  intros Hm Hrx Hsl. destruct st, t as [sl cap rx inb sn pa]. cbn in Hm, Hrx, Hsl. subst.
  unfold pacing_iteration. run.
  match goal with
  | |- context [Base64.base64_encode_audio ?d] => generalize d
  end.
  intros [|b data']; cbn.
  - intros [= <- <-]. cbn. auto.
  - pose proof (encode_nonempty (b :: data') ltac:(discriminate)) as Hne.
    destruct (Base64.base64_encode_audio (b :: data')) as [|c enc] eqn:Henc;
      [congruence|].
    cbn. destruct sn as [e|]; cbn.
    + intros [= <- <-]. cbn. rewrite <- !app_assoc. auto.
    + destruct pa as [e|]; cbn; intros [= <- <-]; cbn; rewrite <- !app_assoc; auto.
Qed.

Lemma delivered_all_nil (w : option WebSocket) : delivered_all [] <$> w = w.
Proof. destruct w as [[o l]|]; cbn; [|reflexivity]. unfold delivered_all; cbn. now rewrite app_nil_r. Qed.

Lemma delivered_all_app (l1 l2 : list OutboundEvent) (w : option WebSocket) :
  delivered_all l2 <$> (delivered_all l1 <$> w) = delivered_all (l1 ++ l2) <$> w.
Proof.
  destruct w as [[o l]|]; cbn; [|reflexivity].
  unfold delivered_all; cbn. now rewrite app_assoc.
Qed.

Lemma pacing_iteration_summary
    (invoke : string -> string -> Dispatch.tool_result)
    (t : tick) (st st' : state) (r : result unit) :
  pacing_iteration invoke t st = (r, st') ->
  r <> Running /\
  exists audios delta,
    websocket st' = delivered_all (map input_audio_buffer_append audios) <$> websocket st /\
    trace st' = trace st ++ delta /\
    forallb pacing_call delta = true /\
    same_past st st'.
Proof.
  destruct st, t as [sl cap rx inb sn pa]. unfold pacing_iteration, same_past. run.
  destruct sl as [e|]; cbn.
  { intros [= <- <-]. split; [discriminate|]. exists [], [Sleep 10]. cbn.
    rewrite delivered_all_nil. auto 10. }
  match goal with
  | |- context [if negb ?b then _ else _] => destruct b
  end; cbn.
  { intros [= <- <-]. split; [discriminate|]. exists [], [Sleep 10]. cbn.
    rewrite delivered_all_nil. auto 10. }
  match goal with
  | |- context [Base64.base64_encode_audio ?d] => generalize d
  end.
  intros [|b data']; cbn.
  { intros [= <- <-]. split; [discriminate|]. exists [], [Sleep 10]. cbn.
    rewrite delivered_all_nil. auto 10. }
  destruct (Base64.base64_encode_audio (b :: data')) as [|c enc]; cbn.
  { intros [= <- <-]. split; [discriminate|].
    exists [], [Sleep 10; Log DEBUG "No audio data to send"]. cbn.
    rewrite delivered_all_nil, <- app_assoc. auto 10. }
  destruct sn as [e|]; cbn.
  { intros [= <- <-]. split; [discriminate|].
    eexists [], [Sleep 10; LogWsEvent _; WsSend _]. cbn.
    rewrite delivered_all_nil, <- !app_assoc. cbn. auto 10. }
  destruct pa as [e|]; cbn; intros [= <- <-]; (split; [discriminate|]);
    eexists [String c enc], [Sleep 10; LogWsEvent _; WsSend _; ProcessAudioData _]; cbn;
    rewrite <- !app_assoc; cbn; auto 10.
Qed.

Lemma pacing_loop_summary
    (invoke : string -> string -> Dispatch.tool_result)
    (ticks : list tick) (st st' : state) (r : result unit) :
  pacing_loop invoke ticks st = (r, st') ->
  (forall u, r <> Ret u) /\
  exists audios delta,
    websocket st' = delivered_all (map input_audio_buffer_append audios) <$> websocket st /\
    trace st' = trace st ++ delta /\
    forallb pacing_call delta = true /\
    same_past st st'.
Proof.
  revert st. induction ticks as [|t ticks IH]; intros st; cbn [pacing_loop].
  - intros [= <- <-]. split; [discriminate|]. exists [], []. cbn.
    rewrite delivered_all_nil, app_nil_r. unfold same_past. auto 10.
  - unfold bind at 1.
    destruct (pacing_iteration invoke t st) as [r1 st1] eqn:H1.
    apply pacing_iteration_summary in H1 as (Hr1 & a1 & d1 & Hw1 & Ht1 & Hc1 & Hp1).
    destruct r1 as [[]|e|]; [| |congruence].
    + intros H2. apply IH in H2 as (Hr & a2 & d2 & Hw2 & Ht2 & Hc2 & Hp2).
      split; [exact Hr|]. exists (a1 ++ a2), (d1 ++ d2).
      rewrite Hw2, Hw1, delivered_all_app, Ht2, Ht1, map_app, forallb_app, Hc1, Hc2, app_assoc.
      unfold same_past in *. intuition congruence.
    + intros [= <- <-]. split; [discriminate|]. exists a1, d1. auto.
Qed.

(** ** Start-up and the start of a session *)

(** C3 (as the code has it): when [OPENAI_API_KEY] is unset or empty at
    start-up, the process logs an error and ends; [realtime_api] returns
    normally, so the exit status is 0; nothing is constructed and no
    connection is attempted. *)
Theorem missing_key_logs_and_returns
    (cfg : Config) (invoke : string -> string -> Dispatch.tool_result)
    (a : attempt) (script : list attempt) :
  a_api_key a = None \/ a_api_key a = Some EmptyString ->
  program cfg invoke (a :: script) startup =
    (Some 0%Z,
     {| mic := None; visual_interface := None; websocket := None; ws_task := None;
        old_mics := []; old_visuals := []; old_websockets := []; old_tasks := [];
        pygame_quit := true;
        trace := [Print "Press Ctrl+C to exit the program.";
                  Getenv "OPENAI_API_KEY";
                  Log ERROR "Please set the OPENAI_API_KEY in your .env file.";
                  PygameQuit] |}).
Proof.
  intros [H|H]; unfold program, main, main_async; cbn [realtime_api];
    unfold iteration, try_block; rewrite H; reflexivity.
Qed.

(** C3, as stated, fails: with the key missing the exit status is 0. *)
Lemma missing_key_exit_status_is_zero :
  ~ exists status : Z,
      fst (program Sample.config Sample.bridge [Sample.no_key] startup) = Some status /\
      status <> 0%Z.
Proof. intros (status & H & Hnz). vm_compute in H. congruence. Qed.


(** The pacing loop of an iteration starts in the state [begin_session]
    leaves. *)
Lemma try_block_begins_session
    (cfg : Config) (invoke : string -> string -> Dispatch.tool_result)
    (a : attempt) (c : ascii) (k : string) (st st1 : state) :
  a_api_key a = Some (String c k) ->
  begin_session cfg a (String c k) (record (Getenv "OPENAI_API_KEY") st) = (Ret tt, st1) ->
  try_block cfg invoke a st =
    (try_finally (session_active invoke a) (do WsClose >> modify (on_websocket ws_closed)) >>
     ret Break) st1.
Proof.
  destruct st, a as [key am av ac ag asr tk wt vt bo]. cbn. intros ->.
  unfold try_block, begin_session. run.
  destruct am; cbn; [discriminate|].
  destruct av; cbn; [discriminate|].
  destruct ac; cbn; [discriminate|].
  destruct ag; cbn; [discriminate|].
  destruct asr; cbn; [discriminate|].
  intros [= <-]. reflexivity.
Qed.

(** ** Release of resources *)


(** Case analysis on what the clauses of lines 131-142 do with [e]. *)
Ltac outer_except e bo :=
  let reason := fresh "reason" in
  let e' := fresh "e" in
  destruct e as [reason| | |]; cbn;
  [ destruct (contains "keepalive ping timeout" reason) eqn:?; cbn;
    [ destruct bo as [e'|]; cbn | ]
  | | | ].





(** Case analysis on what lines 123-127 do with the outcome of a task. *)
Ltac awaited wt vt :=
  let e := fresh "e" in
  destruct wt as [e|]; cbn;
  [ destruct e; cbn
  | destruct vt as [e|]; cbn; [destruct e; cbn|] ].








(** ** The handshake *)




Lemma realtime_api_finally_keeps_sent (s : state) :
  exists s' calls, realtime_api_finally s = (Ret tt, s') /\
    ws_sent <$> websocket s' = ws_sent <$> websocket s /\
    old_websockets s' = old_websockets s /\
    trace s' = trace s ++ calls /\
    existsb is_handshake calls = false.
Proof.
  destruct s as [m v w t om ov ow ot pq tr]. unfold realtime_api_finally. run.
  destruct m as [m|], w as [w|]; cbn; do 2 eexists; (split; [reflexivity|]); cbn;
    rewrite <- ?app_assoc; cbn; repeat split; reflexivity.
Qed.



(** ** Reconnection *)

Ltac leaf1 :=
  intros [= <- <-]; unfold reconnects, before_loop; cbn;
  repeat match goal with
  | H : contains _ _ = _ |- _ => rewrite H
  end;
  split; intros; congruence.

Lemma attempt_reconnects
    (cfg : Config) (invoke : string -> string -> Dispatch.tool_result)
    (a : attempt) (st s : state) (r : result flow) :
  try_except (try_block cfg invoke a) (realtime_api_except a) st = (r, s) ->
  r = Ret Continue <-> reconnects a = true.
Proof.
  destruct st, a as [key am av ac ag asr tk wt vt bo].
  unfold try_block, realtime_api_except. run.
  destruct key as [[|c k]|]; cbn.
  1, 3: leaf1.
  destruct am as [e|]; cbn.
  { outer_except e bo; leaf1. }
  destruct av as [e|]; cbn.
  { outer_except e bo; leaf1. }
  destruct ac as [e|]; cbn.
  { outer_except e bo; leaf1. }
  destruct ag as [e|]; cbn.
  { outer_except e bo; leaf1. }
  destruct asr as [e|]; cbn.
  { outer_except e bo; leaf1. }
  match goal with
  | |- context [pacing_loop invoke tk ?S] =>
      destruct (pacing_loop invoke tk S) as [r1 st2] eqn:Hloop
  end.
  apply pacing_loop_summary in Hloop as (Hr1 & _).
  destruct r1 as [u|e|]; cbn; [now destruct (Hr1 u) | | leaf1].
  destruct e; cbn.
  - awaited wt vt; leaf1.
  - awaited wt vt; leaf1.
  - awaited wt vt; leaf1.
  - leaf1.
Qed.

Lemma try_finally_result {A} (m : M A) (fin : M unit) (st st' : state) (r : result A) :
  (forall s, exists s', fin s = (Ret tt, s')) ->
  try_finally m fin st = (r, st') ->
  exists s, m st = (r, s).
Proof.
  intros Hfin. unfold try_finally. destruct (m st) as [r0 s] eqn:Hm.
  destruct (Hfin s) as [s' Hs'].
  destruct r0; rewrite ?Hs'; intros [= <- <-]; eauto.
Qed.

(** The loop goes round again exactly after an iteration whose first
    failure comes before its pacing loop and is a close with the keepalive
    signature (the wait before reconnecting not being interrupted).  An
    exception raised inside the pacing loop or by the awaited tasks never
    leads to a reconnection, whatever its reason. *)
Lemma iteration_reconnects
    (cfg : Config) (invoke : string -> string -> Dispatch.tool_result)
    (a : attempt) (st st' : state) (r : result flow) :
  iteration cfg invoke a st = (r, st') ->
  r = Ret Continue <-> reconnects a = true.
Proof.
  intros Hit. unfold iteration in Hit.
  apply try_finally_result in Hit as (s & Hs).
  - eapply attempt_reconnects, Hs.
  - intros s0. destruct (realtime_api_finally_keeps_sent s0) as (s' & calls & Hs' & _). eauto.
Qed.

(** Without such a failure the first iteration is the last: the rest of
    the script is never looked at. *)
Lemma realtime_api_no_retry
    (cfg : Config) (invoke : string -> string -> Dispatch.tool_result)
    (a : attempt) (rest rest' : list attempt) (st : state) :
  reconnects a = false ->
  realtime_api cfg invoke (a :: rest) st = realtime_api cfg invoke (a :: rest') st.
Proof.
  intros Hno. cbn [realtime_api]. unfold bind.
  destruct (iteration cfg invoke a st) as [r st'] eqn:Hit.
  apply iteration_reconnects in Hit.
  destruct r as [[]|e|]; try reflexivity.
  destruct Hit as [Hit _]. rewrite Hit in Hno; [discriminate | reflexivity].
Qed.

(** C1 at the failing input: a session speaks, then its connection is lost
    to a keepalive ping timeout, which the next send in the pacing loop and
    the inbound task both report.  The error is logged by the handler of
    the pacing loop; [realtime_api] returns after a single connection
    attempt, without the one-second wait and without looking at the
    iteration that would have followed. *)
Theorem keepalive_timeout_in_loop_is_not_retried :
  let out := realtime_api Sample.config Sample.bridge
               [Sample.lost_session; Sample.session_of [Sample.speaking]] startup in
  transient Sample.keepalive_timeout = true /\
  fst out = Ret tt /\
  connections (trace (snd out)) = 1 /\
  ~ In (Sleep 1000) (trace (snd out)) /\
  In (Log EXCEPTION
        ("An unexpected error occurred in the main loop: " +:+ str Sample.keepalive_timeout))
     (trace (snd out)).
Proof.
  vm_compute. repeat split.
  - intros H. repeat (destruct H as [H|H]; [discriminate H|]). exact H.
  - repeat (first [left; reflexivity | right]).
Qed.

(** ** The inbound dispatch loop *)

Section DispatchFacts.
Import Dispatch.

Variable invoke : string -> string -> tool_result.

Lemma dispatch_counts (ev : InboundEvent) (s : session_state) :
  dispatched (dispatch invoke ev s) = S (dispatched s).
Proof.
  destruct ev; cbn; try reflexivity.
  - destruct (Base64.base64_decode_audio payload); reflexivity.
  - destruct (calls s !! call_id) as [[n args]|]; reflexivity.
Qed.

Lemma dispatch_closing (ev : InboundEvent) (s : session_state) :
  closing (dispatch invoke ev s) = closing s || fatal ev.
Proof.
  destruct ev; cbn; try reflexivity.
  - destruct (Base64.base64_decode_audio payload); reflexivity.
  - destruct (calls s !! call_id) as [[n args]|]; reflexivity.
  - now destruct fatal0.
Qed.

Lemma process_ws_messages_all (evs : list InboundEvent) (s : session_state) :
  closing s = false ->
  forallb (fun ev => negb (fatal ev)) evs = true ->
  closing (process_ws_messages invoke evs s) = false /\
  dispatched (process_ws_messages invoke evs s) = dispatched s + length evs.
Proof.
  revert s. induction evs as [|ev evs IH]; intros s Hs Hevs; cbn.
  - split; [exact Hs | lia].
  - cbn in Hevs. apply andb_prop in Hevs as [Hev Hevs]. rewrite Hs.
    destruct (IH (dispatch invoke ev s)) as [Hc Hd]; [|exact Hevs|].
    + rewrite dispatch_closing, Hs. now destruct (fatal ev).
    + split; [exact Hc|]. rewrite Hd, dispatch_counts. lia.
Qed.

End DispatchFacts.

(** C8: when a function call completes and the tool fails with a
    [ToolError], the session is not closed: the error message goes back on
    the transport as the text of a function-call-result for that call, the
    call is forgotten, and the loop carries on with the events that follow,
    every one of which is dispatched as long as none is a fatal [error]. *)
Theorem tool_error_does_not_end_session
    (invoke : string -> string -> Dispatch.tool_result)
    (call_id name arguments message : string)
    (s : Dispatch.session_state) (rest : list Dispatch.InboundEvent) :
  Dispatch.closing s = false ->
  Dispatch.calls s !! call_id = Some (name, arguments) ->
  invoke name arguments = Dispatch.ToolError message ->
  forallb (fun ev => negb (Dispatch.fatal ev)) rest = true ->
  let done := Dispatch.function_call_arguments_done call_id in
  let s1 := Dispatch.dispatch invoke done s in
  let s2 := Dispatch.process_ws_messages invoke (done :: rest) s in
  Dispatch.closing s1 = false /\
  Dispatch.turn s1 = Dispatch.turn s /\
  Dispatch.calls s1 !! call_id = None /\
  Dispatch.effects s1 =
    Dispatch.effects s ++ [Dispatch.Send (function_call_result call_id message)] /\
  s2 = Dispatch.process_ws_messages invoke rest s1 /\
  Dispatch.closing s2 = false /\
  Dispatch.dispatched s2 = Dispatch.dispatched s + 1 + length rest.
Proof.
  intros Hopen Hcall Htool Hrest. cbn zeta.
  assert (H1 : Dispatch.dispatch invoke (Dispatch.function_call_arguments_done call_id) s =
               Dispatch.step id (delete call_id) false
                 [Dispatch.Send (function_call_result call_id message)] s).
  { cbn. now rewrite Hcall, Htool. }
  rewrite H1. cbn [Dispatch.process_ws_messages]. rewrite Hopen, H1.
  cbn [Dispatch.step Dispatch.closing Dispatch.turn Dispatch.calls Dispatch.effects].
  rewrite Hopen, lookup_delete_eq.
  destruct (process_ws_messages_all invoke rest
              (Dispatch.step id (delete call_id) false
                 [Dispatch.Send (function_call_result call_id message)] s))
    as [Hc Hd]; [cbn; now rewrite Hopen | exact Hrest |].
  rewrite Hc, Hd. cbn. repeat split; lia.
Qed.

(** ** SendMessageAsync *)



(** ** The theorems at concrete inputs *)

Lemma muted_iteration_sends_nothing_witness :
  mic Sample.recording = Some (start_recording AsyncMicrophone_new) /\
  t_receiving Sample.listening = true /\
  trace (snd (pacing_iteration Sample.bridge Sample.listening Sample.recording)) = [Sleep 10] /\
  websocket (snd (pacing_iteration Sample.bridge Sample.listening Sample.recording)) =
    websocket Sample.recording.
Proof.
  split; [reflexivity|]. split; [reflexivity|].
  pose proof (muted_iteration_sends_nothing Sample.bridge Sample.listening _
                Sample.recording eq_refl eq_refl) as (Htr & Hws & _).
  split; [exact Htr | exact Hws].
Defined.

Lemma unmuted_iteration_drains_witness :
  mic Sample.recording = Some (start_recording AsyncMicrophone_new) /\
  t_receiving Sample.speaking = false /\
  t_sleep Sample.speaking = None /\
  let out := pacing_iteration Sample.bridge Sample.speaking Sample.recording in
  fst out = Ret tt /\
  trace (snd out) =
    [Sleep 10; LogWsEvent (input_audio_buffer_append "TWFu");
     WsSend (input_audio_buffer_append "TWFu"); ProcessAudioData ["M"; "a"; "n"]%byte] /\
  (energy <$> visual_interface (snd out)) = Some [["M"; "a"; "n"]%byte].
Proof.
  split; [reflexivity|]. split; [reflexivity|]. split; [reflexivity|]. cbn zeta.
  pose proof (unmuted_iteration_drains Sample.bridge Sample.speaking _ Sample.recording
                _ _ eq_refl eq_refl eq_refl
                (surjective_pairing
                   (pacing_iteration Sample.bridge Sample.speaking Sample.recording)))
    as (_ & Hr & Htr & _ & Hv).
  split; [exact Hr|]. split; [exact Htr|]. now rewrite Hv.
Defined.

Lemma missing_key_logs_and_returns_witness :
  a_api_key Sample.no_key = None /\
  fst (program Sample.config Sample.bridge [Sample.no_key] startup) = Some 0%Z /\
  connections (trace (snd (program Sample.config Sample.bridge [Sample.no_key] startup))) = 0.
Proof.
  split; [reflexivity|].
  rewrite (missing_key_logs_and_returns Sample.config Sample.bridge Sample.no_key []
             (or_introl eq_refl)).
  split; reflexivity.
Defined.




Lemma tool_error_does_not_end_session_witness :
  let rest := [Dispatch.speech_started; Dispatch.audio_done] in
  let done := Dispatch.function_call_arguments_done "call_1" in
  Dispatch.closing Sample.call_pending = false /\
  Dispatch.calls Sample.call_pending !! "call_1" = Some ("SendMessageAsync", "{}") /\
  Sample.bridge "SendMessageAsync" "{}" = Dispatch.ToolError "unknown tool SendMessageAsync" /\
  forallb (fun ev => negb (Dispatch.fatal ev)) rest = true /\
  Dispatch.effects (Dispatch.dispatch Sample.bridge done Sample.call_pending) =
    [Dispatch.Send (function_call_result "call_1" "unknown tool SendMessageAsync")] /\
  Dispatch.dispatched
    (Dispatch.process_ws_messages Sample.bridge (done :: rest) Sample.call_pending) = 4.
Proof.
  cbn zeta.
  assert (H2 : Dispatch.calls Sample.call_pending !! "call_1" =
               Some ("SendMessageAsync", "{}")) by (vm_compute; reflexivity).
  do 4 (split; [first [exact H2 | reflexivity]|]).
  destruct (tool_error_does_not_end_session Sample.bridge "call_1" "SendMessageAsync" "{}"
              "unknown tool SendMessageAsync" Sample.call_pending
              [Dispatch.speech_started; Dispatch.audio_done]
              eq_refl H2 eq_refl eq_refl)
    as (_ & _ & _ & He & _ & _ & Hd).
  split; [exact He | exact Hd].
Defined.


(** ** Further properties of the orchestrator *)

Import Behaviour.


Lemma fed_nil (v : option VisualInterface) : fed [] <$> v = v.
Proof. destruct v as [[a e]|]; cbn; [|reflexivity]. unfold fed; cbn. now rewrite app_nil_r. Qed.

Lemma fed_app (l1 l2 : list Base64.bytes) (v : option VisualInterface) :
  fed l2 <$> (fed l1 <$> v) = fed (l1 ++ l2) <$> v.
Proof.
  destruct v as [[a e]|]; cbn; [|reflexivity]. unfold fed; cbn. now rewrite app_assoc.
Qed.

Lemma pacing_iteration_forwards
    (invoke : string -> string -> Dispatch.tool_result)
    (t : tick) (st st' : state) (r : result unit) :
  pacing_iteration invoke t st = (r, st') ->
  exists frames last,
    visual_interface st' = fed frames <$> visual_interface st /\
    websocket st' = delivered_all (map audio_append (frames ++ last)) <$> websocket st /\
    (r = Ret tt -> last = []) /\
    length last <= 1 /\
    length (frames ++ last) <= (if t_receiving t then 0 else 1) /\
    Forall (fun f => f <> []) (frames ++ last).
Proof.
  destruct st as [m v w tk om ov ow ot pq tr], t as [sl cap rx inb sn pa].
  unfold pacing_iteration. run.
  assert (Quiet : forall (r0 : result unit) (b : bool), exists frames last : list Base64.bytes,
             v = fed frames <$> v /\
             w = delivered_all (map audio_append (frames ++ last)) <$> w /\
             (r0 = Ret tt -> last = []) /\ length last <= 1 /\
             length (frames ++ last) <= (if b then 0 else 1) /\
             Forall (fun f => f <> []) (frames ++ last)).
  { intros r0 b. exists [], []. cbn. rewrite fed_nil, delivered_all_nil.
    repeat split; auto; destruct b; lia. }
  destruct sl as [e|]; cbn.
  { intros [= <- <-]. cbn. apply (Quiet _ rx). }
  destruct m as [m|]; cbn.
  2: { intros [= <- <-]. cbn. apply (Quiet _ rx). }
  destruct rx; cbn.
  { intros [= <- <-]. cbn. apply (Quiet _ true). }
  match goal with
  | |- context [Base64.base64_encode_audio ?d] => generalize d
  end.
  intros [|b data']; cbn.
  { intros [= <- <-]. cbn. apply (Quiet _ false). }
  pose proof (encode_nonempty (b :: data') ltac:(discriminate)) as Hne.
  destruct (Base64.base64_encode_audio (b :: data')) as [|c enc] eqn:Henc; [congruence|].
  cbn. destruct sn as [e|]; cbn.
  { intros [= <- <-]. cbn. apply (Quiet _ false). }
  destruct pa as [e|]; cbn; intros [= <- <-]; cbn.
  - exists [], [b :: data']. cbn. unfold audio_append. rewrite fed_nil, Henc.
    repeat split; auto; try discriminate; try (constructor; [discriminate | constructor]).
  - exists [b :: data'], []. cbn. unfold audio_append. rewrite Henc.
    repeat split; auto; try discriminate; try (constructor; [discriminate | constructor]).
Qed.

Lemma pacing_loop_forwards
    (invoke : string -> string -> Dispatch.tool_result)
    (ticks : list tick) (st st' : state) (r : result unit) :
  pacing_loop invoke ticks st = (r, st') ->
  exists frames last,
    visual_interface st' = fed frames <$> visual_interface st /\
    websocket st' = delivered_all (map audio_append (frames ++ last)) <$> websocket st /\
    length last <= 1 /\
    length (frames ++ last) <=
      length (List.filter (fun t => negb (t_receiving t)) ticks) /\
    Forall (fun f => f <> []) (frames ++ last).
Proof.
  revert st. induction ticks as [|t ticks IH]; intros st; cbn [pacing_loop].
  - intros [= <- <-]. exists [], []. cbn. rewrite fed_nil, delivered_all_nil. auto.
  - unfold bind at 1.
    destruct (pacing_iteration invoke t st) as [r1 st1] eqn:H1.
    apply pacing_iteration_forwards in H1 as (f1 & l1 & Hv1 & Hw1 & Hr1 & Hl1 & Hn1 & Hf1).
    assert (Hcount : length (f1 ++ l1) <=
                     length (List.filter (fun t => negb (t_receiving t)) (t :: ticks))).
    { cbn [List.filter]. destruct (t_receiving t); cbn in *; lia. }
    destruct r1 as [[]|e|].
    + rewrite (Hr1 eq_refl), app_nil_r in *. intros H2.
      apply IH in H2 as (f2 & l2 & Hv2 & Hw2 & Hl2 & Hn2 & Hf2).
      exists (f1 ++ f2), l2.
      rewrite Hv2, Hv1, fed_app, Hw2, Hw1, delivered_all_app, <- map_app, <- app_assoc.
      repeat split; auto.
      * clear Hcount. rewrite !length_app in *. cbn [List.filter].
        destruct (t_receiving t); cbn [negb length] in *; lia.
      * apply Forall_app. split; assumption.
    + intros [= <- <-]. exists f1, l1. auto.
    + intros [= <- <-]. exists f1, l1. auto.
Qed.

Lemma pacing_iteration_calm
    (invoke : string -> string -> Dispatch.tool_result) (t : tick) (st : state) :
  calm_tick t = true -> fst (pacing_iteration invoke t st) = Ret tt.
Proof.
  destruct st as [m v w tk om ov ow ot pq tr], t as [[e|] cap rx inb [e'|] [e''|]];
    try discriminate. intros _.
  unfold pacing_iteration. run.
  match goal with
  | |- context [if negb ?b then _ else _] => destruct b
  end; cbn; [reflexivity|].
  match goal with
  | |- context [Base64.base64_encode_audio ?d] => generalize d
  end.
  intros [|b data']; cbn; [reflexivity|].
  destruct (Base64.base64_encode_audio (b :: data')); reflexivity.
Qed.

Lemma pacing_loop_calm
    (invoke : string -> string -> Dispatch.tool_result) (ticks : list tick) (st : state) :
  forallb calm_tick ticks = true -> fst (pacing_loop invoke ticks st) = Running.
Proof.
  revert st. induction ticks as [|t ticks IH]; intros st; cbn [pacing_loop forallb].
  - reflexivity.
  - intros H. apply andb_prop in H as [Ht Hts]. unfold bind at 1.
    pose proof (pacing_iteration_calm invoke t st Ht) as H1.
    destruct (pacing_iteration invoke t st) as [r1 st1]. cbn in H1. subst r1.
    now apply IH.
Qed.


(** X3: as long as no call raises, [realtime_api] does not come to an end:
    the pacing loop has no exit of its own ([exit_event] is set only in the
    [finally] that follows it), so an iteration that has its key and in which
    every call succeeds is still running after any number of turns. *)
Theorem calm_session_keeps_running
    (cfg : Config) (invoke : string -> string -> Dispatch.tool_result)
    (a : attempt) (rest : list attempt) (st : state) :
  calm a = true ->
  fst (realtime_api cfg invoke (a :: rest) st) = Running.
Proof.
  intros Hcalm. cbn [realtime_api]. unfold bind.
  destruct (iteration cfg invoke a st) as [r st'] eqn:Hit.
  enough (r = Running) as -> by reflexivity.
  revert Hit. destruct st, a as [key am av ac ag asr tk wt vt bo].
  unfold calm, before_loop in Hcalm. cbn in Hcalm.
  destruct key as [[|c k]|]; try discriminate.
  destruct am, av, ac, ag, asr; try discriminate.
  unfold iteration, try_block, realtime_api_except. run.
  match goal with
  | |- context [pacing_loop invoke tk ?S] =>
      pose proof (pacing_loop_calm invoke tk S Hcalm) as Hloop;
      destruct (pacing_loop invoke tk S) as [r1 st2]
  end.
  cbn in Hloop. subst r1. cbn. now intros [= <- <-].
Qed.

Arguments waits : simpl never.

Lemma waits_app (l1 l2 : list call) : waits (l1 ++ l2) = waits l1 + waits l2.
Proof. unfold waits. now rewrite List.filter_app, length_app. Qed.

Lemma realtime_api_finally_calls (s : state) :
  exists s', realtime_api_finally s = (Ret tt, s') /\
             trace s' = trace s ++ cleanup_calls s.
Proof.
  destruct s as [m v w t om ov ow ot pq tr]. unfold realtime_api_finally, cleanup_calls. run.
  destruct m as [m|], w as [w|]; cbn; eexists; (split; [reflexivity|]); cbn;
    rewrite <- ?app_assoc; reflexivity.
Qed.

Lemma waits_cleanup (s : state) : waits (cleanup_calls s) = 0.
Proof. unfold cleanup_calls. destruct (mic s), (websocket s); reflexivity. Qed.

Ltac nope := let H := fresh in intros H; discriminate H.

Ltac leaf2 :=
  first
    [ nope
    | intros _; eexists; split; [reflexivity|]; cbn; rewrite !waits_app;
      unfold waits; cbn; lia ].

(** What line 132 makes of [e] in an iteration that goes round again. *)
Ltac transient_only e bo :=
  let reason := fresh "reason" in
  let e' := fresh "e" in
  destruct e as [reason| | |]; cbn; try nope;
  destruct (contains "keepalive ping timeout" reason); cbn; [|nope];
  destruct bo as [e'|]; cbn; leaf2.

Lemma attempt_waits_once
    (cfg : Config) (invoke : string -> string -> Dispatch.tool_result)
    (a : attempt) (st : state) :
  reconnects a = true ->
  exists s, try_except (try_block cfg invoke a) (realtime_api_except a) st = (Ret Continue, s) /\
            waits (trace s) = waits (trace st) + 1.
Proof.
  destruct st, a as [key am av ac ag asr tk wt vt bo].
  unfold reconnects, before_loop, transient. cbn.
  unfold try_block, realtime_api_except. run.
  destruct key as [[|c k]|]; cbn; try nope.
  destruct am as [e|]; cbn; [transient_only e bo|].
  destruct av as [e|]; cbn; [transient_only e bo|].
  destruct ac as [e|]; cbn; [transient_only e bo|].
  destruct ag as [e|]; cbn; [transient_only e bo|].
  destruct asr as [e|]; cbn; [transient_only e bo | nope].
Qed.

Lemma iteration_waits_once
    (cfg : Config) (invoke : string -> string -> Dispatch.tool_result)
    (a : attempt) (st : state) :
  reconnects a = true ->
  exists st', iteration cfg invoke a st = (Ret Continue, st') /\
              waits (trace st') = waits (trace st) + 1.
Proof.
  intros Hre. destruct (attempt_waits_once cfg invoke a st Hre) as (s & Hs & Hw).
  destruct (realtime_api_finally_calls s) as (s' & Hs' & Htr).
  exists s'. unfold iteration, try_finally. rewrite Hs, Hs'. split; [reflexivity|].
  rewrite Htr, waits_app, waits_cleanup. lia.
Qed.

(** X2: the number of reconnections is not bounded: after any number of
    iterations that each end in a keepalive-timeout close before the pacing
    loop, the loop has waited one second each time and goes on with the next
    iteration. *)
Theorem every_transient_failure_is_retried
    (cfg : Config) (invoke : string -> string -> Dispatch.tool_result)
    (script rest : list attempt) (st : state) :
  Forall (fun a => reconnects a = true) script ->
  exists st', realtime_api cfg invoke (script ++ rest) st = realtime_api cfg invoke rest st' /\
              waits (trace st') = waits (trace st) + length script.
Proof.
  intros Hall. revert st. induction Hall as [|a script Ha Hall IH]; intros st.
  - exists st. cbn. split; [reflexivity | lia].
  - destruct (iteration_waits_once cfg invoke a st Ha) as (st1 & H1 & Hw1).
    destruct (IH st1) as (st' & H' & Hw').
    exists st'. cbn [app realtime_api length]. unfold bind at 1. rewrite H1.
    split; [exact H' | lia].
Qed.

(** X1: how [while True] goes on after an iteration.  When the first
    failure of the iteration comes before its pacing loop and is a
    [ConnectionClosedError] with "keepalive ping timeout" in its text, and the
    one-second wait is not interrupted, the next iteration runs in the state
    this one left.  In every other case [realtime_api] ends with this
    iteration, with its result, whatever iterations might have followed. *)
Theorem realtime_api_step
    (cfg : Config) (invoke : string -> string -> Dispatch.tool_result)
    (a : attempt) (rest : list attempt) (st : state) :
  realtime_api cfg invoke (a :: rest) st =
    if reconnects a
    then realtime_api cfg invoke rest (snd (iteration cfg invoke a st))
    else (match fst (iteration cfg invoke a st) with
          | Ret _ => Ret tt
          | Raise e => Raise e
          | Running => Running
          end, snd (iteration cfg invoke a st)).
Proof.
  cbn [realtime_api]. unfold bind.
  destruct (iteration cfg invoke a st) as [r st'] eqn:Hit.
  apply iteration_reconnects in Hit. cbn [fst snd].
  destruct (reconnects a).
  - now rewrite (proj2 Hit eq_refl).
  - destruct r as [[]|e|]; try reflexivity.
    destruct Hit as [Hit _]. discriminate (Hit eq_refl).
Qed.

Ltac leaf5 :=
  let e := fresh "e" in
  let H := fresh in
  intros [= <- <-] e H; first [discriminate H | injection H as <-; cbn; auto].

Lemma attempt_absorbs_errors
    (cfg : Config) (invoke : string -> string -> Dispatch.tool_result)
    (a : attempt) (st s : state) (r : result flow) :
  try_except (try_block cfg invoke a) (realtime_api_except a) st = (r, s) ->
  forall e, r = Raise e -> is_Exception e = false \/ a_backoff a = Some e.
Proof.
  destruct st, a as [key am av ac ag asr tk wt vt bo].
  unfold try_block, realtime_api_except. run.
  destruct key as [[|c k]|]; cbn.
  1, 3: leaf5.
  destruct am as [e|]; cbn.
  { outer_except e bo; leaf5. }
  destruct av as [e|]; cbn.
  { outer_except e bo; leaf5. }
  destruct ac as [e|]; cbn.
  { outer_except e bo; leaf5. }
  destruct ag as [e|]; cbn.
  { outer_except e bo; leaf5. }
  destruct asr as [e|]; cbn.
  { outer_except e bo; leaf5. }
  match goal with
  | |- context [pacing_loop invoke tk ?S] =>
      destruct (pacing_loop invoke tk S) as [r1 st2] eqn:Hloop
  end.
  apply pacing_loop_summary in Hloop as (Hr1 & _).
  destruct r1 as [u|e|]; cbn; [now destruct (Hr1 u) | | leaf5].
  destruct e; cbn.
  - awaited wt vt; leaf5.
  - awaited wt vt; leaf5.
  - awaited wt vt; leaf5.
  - leaf5.
Qed.

(** X5: no [Exception] raised by the calls of an iteration leaves
    [realtime_api]: what escapes is either not an [Exception] (a
    [KeyboardInterrupt], a [CancelledError]) or was raised by the wait before
    a reconnection, inside the handler of line 131. *)
Theorem realtime_api_absorbs_errors
    (cfg : Config) (invoke : string -> string -> Dispatch.tool_result)
    (script : list attempt) (st st' : state) (e : exn) :
  realtime_api cfg invoke script st = (Raise e, st') ->
  is_Exception e = false \/ exists a, In a script /\ a_backoff a = Some e.
Proof.
  revert st. induction script as [|a script IH]; intros st; cbn [realtime_api].
  - discriminate.
  - unfold bind. destruct (iteration cfg invoke a st) as [r1 st1] eqn:H1.
    assert (Ha : forall e0, r1 = Raise e0 ->
                 is_Exception e0 = false \/ a_backoff a = Some e0).
    { unfold iteration in H1. apply try_finally_result in H1 as (s & Hs).
      - eapply attempt_absorbs_errors, Hs.
      - intros s0. destruct (realtime_api_finally_calls s0) as (s' & Hs' & _). eauto. }
    destruct r1 as [[]|e1|]; try discriminate.
    + intros H2. destruct (IH _ H2) as [Hb|(a' & Hin & Hbo)]; [now left|].
      right. exists a'. split; [now right | exact Hbo].
    + intros [= -> <-]. destruct (Ha e eq_refl) as [Hb|Hbo]; [now left|].
      right. exists a. split; [now left | exact Hbo].
Qed.






(** X6: what the pacing loop hands to the visual interface is what it has
    delivered on the connection: the frames added to the visual interface
    are, in order, the non-empty buffers whose audio-appends were delivered,
    short of at most the last one (when [process_audio_data] raised). *)
Theorem visual_gets_what_was_sent
    (invoke : string -> string -> Dispatch.tool_result)
    (ticks : list tick) (st st' : state) (r : result unit)
    (v : VisualInterface) (w : WebSocket) :
  pacing_loop invoke ticks st = (r, st') ->
  visual_interface st = Some v ->
  websocket st = Some w ->
  exists frames last,
    visual_interface st' = Some (fed frames v) /\
    websocket st' = Some (delivered_all (map audio_append (frames ++ last)) w) /\
    length last <= 1 /\
    Forall (fun f => f <> []) (frames ++ last).
Proof.
  intros Hloop Hv Hw.
  apply pacing_loop_forwards in Hloop as (frames & last & Hv' & Hw' & Hl & _ & Hne).
  exists frames, last. rewrite Hv', Hw', Hv, Hw. auto.
Qed.

(** X7: the pacing loop delivers at most one audio-append per turn in
    which the microphone is not emitting, and none for the other turns. *)
Theorem at_most_one_send_per_unmuted_turn
    (invoke : string -> string -> Dispatch.tool_result)
    (ticks : list tick) (st st' : state) (r : result unit) (w : WebSocket) :
  pacing_loop invoke ticks st = (r, st') ->
  websocket st = Some w ->
  exists audios,
    websocket st' = Some (delivered_all (map input_audio_buffer_append audios) w) /\
    length audios <= length (List.filter (fun t => negb (t_receiving t)) ticks).
Proof.
  intros Hloop Hw.
  apply pacing_loop_forwards in Hloop as (frames & last & _ & Hw' & _ & Hn & _).
  exists (map Base64.base64_encode_audio (frames ++ last)).
  rewrite Hw', Hw, length_map, map_map. auto.
Qed.

(** ** GetCurrentTime *)


Section GetCurrentTimeFacts.
Import GetCurrentTime.
Local Open Scope N_scope.

Example run_example :
  run {| year := 2024; month := 10; day := 1; hour := 9; minute := 5; second := 7;
         microsecond := 123456 |} = "2024-10-01 09:05:07".
Proof. reflexivity. Qed.

Lemma append_cons (c : ascii) (s1 s2 : string) :
  String c s1 +:+ s2 = String c (s1 +:+ s2).
Proof. reflexivity. Qed.

Lemma append_nil (s : string) : EmptyString +:+ s = s.
Proof. reflexivity. Qed.













End GetCurrentTimeFacts.

(** ** More on SendMessageAsync *)

Section SendMessageFacts.
Import SendMessageAsync.

Lemma contains_unfold (needle hay : string) :
  contains needle hay =
  String.prefix needle hay ||
  match hay with
  | EmptyString => false
  | String _ rest => contains needle rest
  end.
Proof. now destruct hay. Qed.

Lemma prefix_append (x b : string) : String.prefix x (x +:+ b) = true.
Proof.
  induction x as [|c x IH]; [now destruct b|].
  rewrite append_cons. cbn [String.prefix].
  destruct (ascii_dec c c); [exact IH | congruence].
Qed.

Lemma contains_here (x b : string) : contains x (x +:+ b) = true.
Proof. now rewrite contains_unfold, prefix_append. Qed.

Lemma contains_after (x a b : string) :
  contains x b = true -> contains x (a +:+ b) = true.
Proof.
  intros H. induction a as [|c a IH]; [exact H|].
  rewrite append_cons, contains_unfold, IH. apply orb_true_r.
Qed.

Lemma append_empty (s : string) : s +:+ EmptyString = s.
Proof. induction s as [|c s IH]; [reflexivity | now rewrite append_cons, IH]. Qed.

Lemma append_assoc (a b c : string) : (a +:+ b) +:+ c = a +:+ (b +:+ c).
Proof. induction a as [|ch a IH]; [reflexivity | now rewrite !append_cons, IH]. Qed.

Lemma join_has (sep x : string) (parts : list string) :
  In x parts -> exists pre post, join sep parts = pre +:+ x +:+ post.
Proof.
  induction parts as [|y parts IH]; [intros []|].
  intros [->|Hin].
  - destruct parts as [|z parts].
    + exists EmptyString, EmptyString. cbn [join].
      now rewrite append_nil, append_empty.
    + exists EmptyString, (sep +:+ join sep (z :: parts)). reflexivity.
  - destruct (IH Hin) as (pre & post & E).
    destruct parts as [|z parts]; [destruct Hin|].
    exists (y +:+ sep +:+ pre), post. cbn [join]. cbn [join] in E. rewrite E.
    now rewrite !append_assoc.
Qed.

Lemma find_first {A} (f : A -> bool) (pre : list A) (x : A) (post : list A) :
  Forall (fun y => f y = false) pre -> f x = true ->
  find f (pre ++ x :: post) = Some x.
Proof.
  intros Hpre Hx. induction Hpre as [|y pre Hy Hpre IH]; cbn.
  - now rewrite Hx.
  - now rewrite Hy.
Qed.

(** X8: a non-empty [agent_name] is resolved to the first agent of the
    agency with exactly that name; the message is dispatched once, unchanged,
    to that agent of the agency that [AGENCIES] holds under [agency_name]. *)
Theorem named_agent_is_first_match
    (AGENCIES : gmap string Agency) (completion : get_completion -> option string)
    (self : SendMessageAsync) (agency : Agency) (n : string)
    (pre : list Agent) (agent : Agent) (post : list Agent) :
  AGENCIES !! agency_name self = Some agency ->
  wanted self = Some n ->
  agents agency = pre ++ agent :: post ->
  name agent = n ->
  Forall (fun other => name other <> n) pre ->
  fst (send_message AGENCIES completion self) =
    [{| on_agency := agency; with_message := message self;
        recipient_agent := Some agent |}].
Proof.
  intros Hag Hw Hagents Hname Hpre. unfold send_message, wanted in *. rewrite Hag.
  destruct (agent_name self) as [[|c k]|]; try discriminate Hw.
  injection Hw as <-. rewrite Hagents, (find_first _ pre agent post).
  - now destruct (completion _).
  - eapply Forall_impl; [exact Hpre|]. intros other Hne. now apply String.eqb_neq.
  - now apply String.eqb_eq.
Qed.

(** X9: [send_message] raises only what [get_completion] raises: it ends
    in an exception exactly when it has dispatched the message and that
    call raised, and then the exception is the call's. *)
Theorem send_message_raises_iff
    (AGENCIES : gmap string Agency) (completion : get_completion -> option string)
    (self : SendMessageAsync) (what : string) :
  snd (send_message AGENCIES completion self) = Raises what <->
  exists c, fst (send_message AGENCIES completion self) = [c] /\ completion c = Some what.
Proof.
  unfold send_message. destruct (AGENCIES !! agency_name self) as [agency|].
  2: { cbn. split; [discriminate | intros (c & [=] & _)]. }
  assert (D : forall r,
             let c := {| on_agency := agency; with_message := message self;
                         recipient_agent := r |} in
             let out := match completion c with
                        | Some w => ([c], Raises w)
                        | None => ([c], Returns
                            "Message sent asynchronously. Use 'GetResponse' to check status.")
                        end in
             snd out = Raises what <-> exists c', fst out = [c'] /\ completion c' = Some what).
  { intros r c. cbn zeta. destruct (completion c) as [w|] eqn:Hc; cbn.
    - split; [intros [= ->]; eauto | intros (c' & [= <-] & Hc'); congruence].
    - split; [discriminate | intros (c' & [= <-] & Hc'); congruence]. }
  destruct (agent_name self) as [[|ch k]|]; try apply D.
  destruct (find _ (agents agency)) as [recipient|]; [apply D|].
  cbn. split; [discriminate | intros (c & [=] & _)].
Qed.

(** X10: the text returned for an unknown agent names the agent asked for,
    the agency, and every agent of the agency. *)
Theorem unknown_agent_text_lists_agents
    (AGENCIES : gmap string Agency) (completion : get_completion -> option string)
    (self : SendMessageAsync) (agency : Agency) (n : string) :
  AGENCIES !! agency_name self = Some agency ->
  wanted self = Some n ->
  (forall agent, In agent (agents agency) -> name agent <> n) ->
  exists text,
    send_message AGENCIES completion self = ([], Returns text) /\
    contains n text = true /\
    contains (agency_name self) text = true /\
    forall agent, In agent (agents agency) -> contains (name agent) text = true.
Proof.
  intros Hag Hw Hno. unfold send_message, wanted in *. rewrite Hag.
  destruct (agent_name self) as [[|c k]|]; try discriminate Hw.
  injection Hw as <-.
  destruct (find _ (agents agency)) as [recipient|] eqn:Hfind.
  { apply find_some in Hfind as [Hin Heq]. apply String.eqb_eq in Heq.
    now destruct (Hno _ Hin). }
  eexists. split; [reflexivity|]. split; [|split].
  - apply contains_after, contains_here.
  - do 3 apply contains_after. apply contains_here.
  - intros agent Hin.
    destruct (join_has ", " (name agent) (List.map name (agents agency)))
      as (pre & post & E); [now apply in_map|].
    rewrite E. do 6 apply contains_after. apply contains_here.
Qed.

End SendMessageFacts.

(** ** The further theorems at concrete inputs *)

Lemma every_transient_failure_is_retried_witness :
  Forall (fun a => reconnects a = true)
    [Sample.timed_out_at_handshake; Sample.timed_out_at_handshake] /\
  exists st',
    realtime_api Sample.config Sample.bridge
      ([Sample.timed_out_at_handshake; Sample.timed_out_at_handshake] ++ [Sample.no_key])
      startup =
    realtime_api Sample.config Sample.bridge [Sample.no_key] st' /\
    waits (trace st') = waits (trace startup) + 2.
Proof.
  assert (H : Forall (fun a => reconnects a = true)
                [Sample.timed_out_at_handshake; Sample.timed_out_at_handshake])
    by (repeat constructor).
  split; [exact H|].
  exact (every_transient_failure_is_retried Sample.config Sample.bridge _
           [Sample.no_key] startup H).
Defined.

Lemma calm_session_keeps_running_witness :
  calm (Sample.session_of [Sample.speaking; Sample.listening]) = true /\
  fst (realtime_api Sample.config Sample.bridge
         [Sample.session_of [Sample.speaking; Sample.listening]] startup) = Running.
Proof.
  split; [reflexivity|].
  exact (calm_session_keeps_running Sample.config Sample.bridge
           (Sample.session_of [Sample.speaking; Sample.listening]) [] startup eq_refl).
Defined.


Lemma realtime_api_absorbs_errors_witness :
  let out := realtime_api Sample.config Sample.bridge
               [Sample.session_of [Scenario.cancelled]] startup in
  fst out = Raise CancelledError /\
  (is_Exception CancelledError = false \/
   exists a, In a [Sample.session_of [Scenario.cancelled]] /\
             a_backoff a = Some CancelledError).
Proof.
  cbn zeta.
  assert (H : fst (realtime_api Sample.config Sample.bridge
                     [Sample.session_of [Scenario.cancelled]] startup) =
              Raise CancelledError) by (vm_compute; reflexivity).
  split; [exact H|].
  destruct (realtime_api Sample.config Sample.bridge
              [Sample.session_of [Scenario.cancelled]] startup) as [r s] eqn:E.
  cbn in H. subst r.
  exact (realtime_api_absorbs_errors Sample.config Sample.bridge _ startup s _ E).
Defined.

Lemma visual_gets_what_was_sent_witness :
  let out := pacing_loop Sample.bridge [Sample.speaking; Sample.listening] Sample.recording in
  visual_interface Sample.recording = Some VisualInterface_new /\
  websocket Sample.recording =
    Some (delivered (session_update_event Sample.config) WebSocket_new) /\
  exists frames last,
    visual_interface (snd out) = Some (fed frames VisualInterface_new) /\
    websocket (snd out) =
      Some (delivered_all (map audio_append (frames ++ last))
              (delivered (session_update_event Sample.config) WebSocket_new)) /\
    length last <= 1 /\
    Forall (fun f => f <> []) (frames ++ last).
Proof.
  cbn zeta. do 2 (split; [reflexivity|]).
  exact (visual_gets_what_was_sent Sample.bridge [Sample.speaking; Sample.listening]
           Sample.recording _ _ _ _ (surjective_pairing _) eq_refl eq_refl).
Defined.

Lemma at_most_one_send_per_unmuted_turn_witness :
  let ticks := [Sample.speaking; Sample.listening; Sample.speaking] in
  let out := pacing_loop Sample.bridge ticks Sample.recording in
  websocket Sample.recording =
    Some (delivered (session_update_event Sample.config) WebSocket_new) /\
  exists audios,
    websocket (snd out) =
      Some (delivered_all (map input_audio_buffer_append audios)
              (delivered (session_update_event Sample.config) WebSocket_new)) /\
    length audios <= 2.
Proof.
  cbn zeta. split; [reflexivity|].
  exact (at_most_one_send_per_unmuted_turn Sample.bridge
           [Sample.speaking; Sample.listening; Sample.speaking]
           Sample.recording _ _ _ (surjective_pairing _) eq_refl).
Defined.

Lemma named_agent_is_first_match_witness :
  let self := Sample.to_agent (Some "BrowsingAgent") in
  Sample.agencies !! "ResearchAgency" = Some Sample.research_agency /\
  SendMessageAsync.wanted self = Some "BrowsingAgent" /\
  fst (SendMessageAsync.send_message Sample.agencies Sample.completes self) =
    [{| SendMessageAsync.on_agency := Sample.research_agency;
        SendMessageAsync.with_message := SendMessageAsync.message self;
        SendMessageAsync.recipient_agent := Some Sample.browsing_agent |}].
Proof.
  cbn zeta.
  assert (Hag : Sample.agencies !! "ResearchAgency" = Some Sample.research_agency)
    by (vm_compute; reflexivity).
  split; [exact Hag|]. split; [reflexivity|].
  exact (named_agent_is_first_match Sample.agencies Sample.completes
           (Sample.to_agent (Some "BrowsingAgent")) Sample.research_agency
           "BrowsingAgent" [] Sample.browsing_agent [] Hag eq_refl eq_refl eq_refl
           ltac:(constructor)).
Defined.

Lemma unknown_agent_text_lists_agents_witness :
  let self := Sample.to_agent (Some "Nobody") in
  Sample.agencies !! "ResearchAgency" = Some Sample.research_agency /\
  SendMessageAsync.wanted self = Some "Nobody" /\
  exists text,
    SendMessageAsync.send_message Sample.agencies Sample.completes self =
      ([], SendMessageAsync.Returns text) /\
    contains "Nobody" text = true /\
    contains "ResearchAgency" text = true /\
    forall agent, In agent (SendMessageAsync.agents Sample.research_agency) ->
                  contains (SendMessageAsync.name agent) text = true.
Proof.
  cbn zeta.
  assert (Hag : Sample.agencies !! "ResearchAgency" = Some Sample.research_agency)
    by (vm_compute; reflexivity).
  split; [exact Hag|]. split; [reflexivity|].
  apply (unknown_agent_text_lists_agents Sample.agencies Sample.completes
           (Sample.to_agent (Some "Nobody")) Sample.research_agency "Nobody" Hag eq_refl).
  intros agent [<-|[]]. discriminate.
Defined.





